(** * Semaphore plugin for the Nanoleaf Aurora: panel selection and colour cycle

    A shallow embedding of [src/AuroraPlugin.cpp]: [initPlugin] (the panel
    selector) and [getPluginFrame] (the cycle driver), followed by the
    properties of the two that the specification states.

    Conventions.
    - A C++ [int] is a [Z]; every counter of the program counts panels or
      frame slices, so it stays far below [2^31] and no wrap-around occurs.
    - A [std::vector] or a C array is a [list]; reading or writing outside
      its bounds, and reading a local that was never assigned, is undefined
      behaviour and yields [Undefined].
    - A loop over a list is a recursion on the list.  The loop over the
      palette and the [do ... while] loop of the driver are run on fuel and
      yield [OutOfFuel] when the fuel ends first; the first never does on the
      fuel it is given, the second is the subject of a theorem. *)

From Stdlib Require Import ZArith List Bool Lia QArith Qround.
From Stdlib Require Import Permutation Sorted SpecFloat.
Import ListNotations.

Local Open Scope Z_scope.

(** ** Results of running a piece of the program *)

Inductive result (A : Type) : Type :=
| Ok (a : A)
| Undefined
| OutOfFuel.

Arguments Ok {A} a.
Arguments Undefined {A}.
Arguments OutOfFuel {A}.

Definition bind {A B : Type} (m : result A) (k : A -> result B) : result B :=
  match m with
  | Ok a => k a
  | Undefined => Undefined
  | OutOfFuel => OutOfFuel
  end.

Notation "x <- m ;; k" := (bind m (fun x => k))
  (at level 61, m at next level, right associativity).

(** [v[i]] on a vector or array: defined inside the bounds only. *)
Definition at_index {A : Type} (v : list A) (i : Z) : result A :=
  if i <? 0 then Undefined
  else match nth_error v (Z.to_nat i) with
       | Some a => Ok a
       | None => Undefined
       end.

(** [v[i] = a]. *)
Fixpoint set_nth {A : Type} (v : list A) (n : nat) (a : A) : list A :=
  match v, n with
  | [], _ => []
  | _ :: rest, O => a :: rest
  | x :: rest, S n' => x :: set_nth rest n' a
  end.

Definition store {A : Type} (v : list A) (i : Z) (a : A) : result (list A) :=
  if (0 <=? i) && (i <? Z.of_nat (length v)) then Ok (set_nth v (Z.to_nat i) a)
  else Undefined.

(** ** Constants *)

Definition MINIMUM_PANELS_COUNT : Z := 3.

Definition RED : Z := 0.
Definition YELLOW : Z := 1.
Definition GREEN : Z := 2.

Definition MAXIMUM_COLORS_COUNT : Z := GREEN + 1.

Definition IGNORED_PANEL_ID : Z := -1.

(** ** Data of the host library

    Modelled from the spec: the headers [AuroraPlugin.h], [ColorUtils.h] and
    [LayoutProcessingUtils.h] that declare [RGB_t], [Frame_t], [FrameSlice_t],
    [Panel] and [LayoutData] are not part of the sources; the records below
    carry the fields that [AuroraPlugin.cpp] reads and writes.

    The centroid coordinate is a C++ [double].  The program only compares
    centroids, never computes with them; a finite double is a rational number
    and [>] on finite doubles is the order of the rationals, so the coordinate
    is a [Q] (not-a-number coordinates are outside the model). *)

Record RGB_t := mkRGB { R : Z; G : Z; B : Z }.

Record Frame_t := mkFrame {
  panelId : Z;
  r : Z;
  g : Z;
  b : Z;
  transTime : Z
}.

Record FrameSlice_t := mkSlice { panelIds : list Z }.

Record Panel := mkPanel {
  panel_panelId : Z;          (* panel.panelId *)
  panel_centroid_y : Q        (* panel.shape->getCentroid().y *)
}.

Record LayoutData := mkLayout {
  panels : list Panel         (* nPanels is the length *)
}.

(** ** Globals of the plugin *)

Record Globals := mkGlobals {
  layoutData : LayoutData;
  paletteColors : list RGB_t;
  frameSlices : list FrameSlice_t;
  transitionTime : Z;
  colors : list RGB_t;
  colorPanelIds : list Z;
  currentColorIndex : Z
}.

(** ** initPlugin: colours *)

(** The loop [for (i = 0; i < min(MINIMUM_PANELS_COUNT, paletteColorsCount); i++)
    colors[i] = paletteColors[i]].  The condition fails after three rounds at
    the latest, so that four units of fuel let the loop end by itself. *)
Fixpoint loadUserColors (fuel : nat) (palette : list RGB_t)
         (paletteColorIndex : Z) (colors : list RGB_t) : result (list RGB_t) :=
  match fuel with
  | O => OutOfFuel
  | S fuel' =>
      if paletteColorIndex <? Z.min MINIMUM_PANELS_COUNT (Z.of_nat (length palette))
      then c <- at_index palette paletteColorIndex ;;
           colors' <- store colors paletteColorIndex c ;;
           loadUserColors fuel' palette (paletteColorIndex + 1) colors'
      else Ok colors
  end.

Definition defaultColors : list RGB_t :=
  [mkRGB 255 0 0; mkRGB 255 255 0; mkRGB 0 255 0].

(** ** initPlugin: the middle frame slice *)

(** [std::ceil] on an [int] argument: the argument is converted to [double]
    without loss, it is already integral, and the result converts back to the
    same [int]. *)
Definition ceil_of_int (x : Z) : Z := x.

(** [int middleFrameSliceIndex = ceil((frameSlicesCount - 1) / 2);]
    The division is between two [int]s and truncates toward zero. *)
Definition middleFrameSliceIndex (frameSlicesCount : Z) : Z :=
  ceil_of_int (Z.quot (frameSlicesCount - 1) 2).

(** The search loop.  The state is the pair
    [(minimumMiddleFrameSliceDistance, middlestFrameSliceIndex)]; [slices] is
    what remains of [frameSlices] from [frameSliceIndex] on. *)
Fixpoint searchMiddlest (middle : Z) (slices : list FrameSlice_t)
         (frameSliceIndex : Z) (st : Z * Z) : Z * Z :=
  match slices with
  | [] => st
  | frameSlice :: rest =>
      let panelIdsCount := Z.of_nat (length (panelIds frameSlice)) in
      let middleFrameSliceDistance := Z.abs (middle - frameSliceIndex) in
      let st' :=
        if (MINIMUM_PANELS_COUNT <=? panelIdsCount)
           && (middleFrameSliceDistance <? fst st)
        then (middleFrameSliceDistance, frameSliceIndex)
        else st in
      searchMiddlest middle rest (frameSliceIndex + 1) st'
  end.

(** The index of the slice whose panels are used: the result of the search,
    or the middle slice when the search found nothing. *)
Definition middlestFrameSliceIndex (slices : list FrameSlice_t) : Z :=
  let middle := middleFrameSliceIndex (Z.of_nat (length slices)) in
  let found := snd (searchMiddlest middle slices 0 (31, -1)) in
  if found =? -1 then middle else found.

(** ** initPlugin: sorting the middlest panels by height *)

Definition Qgtb (x y : Q) : bool := negb (Qle_bool x y).

(** The loop of the comparator over [layoutData->panels]: [ys] holds
    [firstPanelY] and [secondPanelY], [None] while still unassigned.  The
    second test is an [else if]: a panel that matches the first identifier
    never assigns [secondPanelY]. *)
Fixpoint lookupCentroids (panels : list Panel) (firstPanelId secondPanelId : Z)
         (ys : option Q * option Q) : option Q * option Q :=
  match panels with
  | [] => ys
  | panel :: rest =>
      let panelId := panel_panelId panel in
      let panelY := panel_centroid_y panel in
      let ys' :=
        if panelId =? firstPanelId then (Some panelY, snd ys)
        else if panelId =? secondPanelId then (fst ys, Some panelY)
        else ys in
      lookupCentroids rest firstPanelId secondPanelId ys'
  end.

(** The comparator passed to [std::sort]: [firstPanelY > secondPanelY]. *)
Definition higherPanel (layout : LayoutData) (firstPanelId secondPanelId : Z)
  : result bool :=
  match lookupCentroids (panels layout) firstPanelId secondPanelId (None, None) with
  | (Some firstPanelY, Some secondPanelY) => Ok (Qgtb firstPanelY secondPanelY)
  | _ => Undefined
  end.

(** [std::sort] is modelled by the insertion sort that the library runs on
    short ranges: each element in turn is moved toward the front of the
    already sorted prefix for as long as the comparator puts it before its
    left neighbour.  [sortedRev] is the sorted prefix read from its last
    element back to its first. *)
Fixpoint linear_insert (comp : Z -> Z -> result bool) (val : Z)
         (sortedRev : list Z) : result (list Z) :=
  match sortedRev with
  | [] => Ok [val]
  | next :: rest =>
      c <- comp val next ;;
      if c : bool
      then moved <- linear_insert comp val rest ;; Ok (next :: moved)
      else Ok (val :: sortedRev)
  end.

Fixpoint insertion_sort (comp : Z -> Z -> result bool)
         (sortedRev : list Z) (rest : list Z) : result (list Z) :=
  match rest with
  | [] => Ok (rev sortedRev)
  | val :: rest' =>
      sortedRev' <- linear_insert comp val sortedRev ;;
      insertion_sort comp sortedRev' rest'
  end.

Definition std_sort (comp : Z -> Z -> result bool) (v : list Z) : result (list Z) :=
  insertion_sort comp [] v.

(** ** initPlugin: binding the three colours to panels *)

Definition bindColorPanelIds (middlestPanelIds : list Z) : result (list Z) :=
  let middlestPanelIdsCount := Z.of_nat (length middlestPanelIds) in
  if 3 <=? middlestPanelIdsCount then
    p0 <- at_index middlestPanelIds 0 ;;
    p1 <- at_index middlestPanelIds 1 ;;
    p2 <- at_index middlestPanelIds 2 ;;
    Ok [p0; p1; p2]
  else if middlestPanelIdsCount =? 2 then
    p0 <- at_index middlestPanelIds 0 ;;
    p1 <- at_index middlestPanelIds 1 ;;
    Ok [p0; IGNORED_PANEL_ID; p1]
  else
    p0 <- at_index middlestPanelIds 0 ;;
    Ok [p0; p0; p0].

(** The panels of the chosen slice, sorted. *)
Definition middlestPanelIds (layout : LayoutData) (slices : list FrameSlice_t)
  : result (list Z) :=
  middlestFrameSlice <- at_index slices (middlestFrameSliceIndex slices) ;;
  std_sort (higherPanel layout) (panelIds middlestFrameSlice).

(** [initPlugin].  The four values that the host library hands over (the
    rotated layout, the colour palette, the frame slices and the [transTime]
    option, absent or present) are the arguments; [currentColorIndex] has its
    initial value [RED]. *)
Definition initPlugin (layout : LayoutData) (palette : list RGB_t)
           (slices : list FrameSlice_t) (transTime : option Z) : result Globals :=
  let transitionTime := match transTime with Some t => t | None => 50 end in
  colors <- loadUserColors 4 palette 0 defaultColors ;;
  sorted <- middlestPanelIds layout slices ;;
  ids <- bindColorPanelIds sorted ;;
  Ok (mkGlobals layout palette slices transitionTime colors ids RED).

(** ** getPluginFrame: the sleep time of the yellow light

    [*sleepTime = transitionTime * 0.4;] multiplies in [double] and converts
    the product back to [int], which drops the fractional part.  Doubles are
    the binary64 numbers of [SpecFloat]. *)

Definition prec : Z := 53.
Definition emax : Z := 1024.

Definition int_to_double (x : Z) : spec_float :=
  binary_normalize prec emax x 0 false.

(** The literal [0.4]: the double nearest to 4/10,
    [7205759403792794 * 2^-54]. *)
Definition double_0_4 : spec_float :=
  S754_finite false 7205759403792794 (-54).

Definition INT_MIN : Z := - 2 ^ 31.
Definition INT_MAX : Z := 2 ^ 31 - 1.

(** Conversion of a [double] to [int]: the value truncated toward zero, and
    undefined when that is not an [int]. *)
Definition double_to_int (x : spec_float) : result Z :=
  match x with
  | S754_zero _ => Ok 0
  | S754_finite s m e =>
      let magnitude := Z.shiftl (Zpos m) e in
      let v := if s then - magnitude else magnitude in
      if (INT_MIN <=? v) && (v <=? INT_MAX) then Ok v else Undefined
  | _ => Undefined
  end.

Definition yellowSleepTime (transitionTime : Z) : result Z :=
  double_to_int (SFmul prec emax (int_to_double transitionTime) double_0_4).

(** ** getPluginFrame: the frames *)

Record ScanState := mkScan {
  scan_frames : list Frame_t;
  scan_index : Z;
  redPanelAbsoluteFrameIndex : Z;
  yellowPanelAbsoluteFrameIndex : Z;
  greenPanelAbsoluteFrameIndex : Z
}.

(** The inner loop, over the panels of one slice. *)
Fixpoint resetSlice (colorPanelIds : list Z) (ids : list Z) (st : ScanState)
  : result ScanState :=
  match ids with
  | [] => Ok st
  | panelId :: rest =>
      let index := scan_index st in
      frames' <- store (scan_frames st) index (mkFrame panelId 0 0 0 1) ;;
      redId <- at_index colorPanelIds RED ;;
      let red' := if panelId =? redId then index
                  else redPanelAbsoluteFrameIndex st in
      yellowId <- at_index colorPanelIds YELLOW ;;
      let yellow' :=
        if (panelId =? yellowId) && negb (yellowId =? IGNORED_PANEL_ID) then index
        else yellowPanelAbsoluteFrameIndex st in
      greenId <- at_index colorPanelIds GREEN ;;
      let green' := if panelId =? greenId then index
                    else greenPanelAbsoluteFrameIndex st in
      resetSlice colorPanelIds rest (mkScan frames' (index + 1) red' yellow' green')
  end.

(** The outer loop, over the slices. *)
Fixpoint resetPanels (colorPanelIds : list Z) (slices : list FrameSlice_t)
         (st : ScanState) : result ScanState :=
  match slices with
  | [] => Ok st
  | frameSlice :: rest =>
      st' <- resetSlice colorPanelIds (panelIds frameSlice) st ;;
      resetPanels colorPanelIds rest st'
  end.

(** The four assignments of one [case]: the colour channels and the
    transition time of [frames[i]]; its panel identifier stays. *)
Definition paint (frames : list Frame_t) (i : Z) (color : RGB_t)
  : result (list Frame_t) :=
  f <- at_index frames i ;;
  store frames i (mkFrame (panelId f) (R color) (G color) (B color) 1).

(** The [switch]: the frames and the value of [*sleepTime] after it.  No
    [case] applies to an index outside the three colours, and nothing is
    written then. *)
Definition setCurrentColor (gl : Globals) (st : ScanState) (sleepTime : Z)
  : result (list Frame_t * Z) :=
  let cur := currentColorIndex gl in
  if cur =? RED then
    color <- at_index (colors gl) RED ;;
    frames' <- paint (scan_frames st) (redPanelAbsoluteFrameIndex st) color ;;
    Ok (frames', transitionTime gl)
  else if cur =? YELLOW then
    color <- at_index (colors gl) YELLOW ;;
    frames' <- paint (scan_frames st) (yellowPanelAbsoluteFrameIndex st) color ;;
    sleep <- yellowSleepTime (transitionTime gl) ;;
    Ok (frames', sleep)
  else if cur =? GREEN then
    color <- at_index (colors gl) GREEN ;;
    frames' <- paint (scan_frames st) (greenPanelAbsoluteFrameIndex st) color ;;
    Ok (frames', transitionTime gl)
  else Ok (scan_frames st, sleepTime).

(** The [do ... while] loop that moves to the next colour. *)
Fixpoint nextColor (fuel : nat) (colorPanelIds : list Z) (currentColorIndex : Z)
  : result Z :=
  match fuel with
  | O => OutOfFuel
  | S fuel' =>
      let incremented := currentColorIndex + 1 in
      let current :=
        if MAXIMUM_COLORS_COUNT <=? incremented then RED else incremented in
      id <- at_index colorPanelIds current ;;
      if id =? IGNORED_PANEL_ID then nextColor fuel' colorPanelIds current
      else Ok current
  end.

Definition setCurrentColorIndex (gl : Globals) (c : Z) : Globals :=
  mkGlobals (layoutData gl) (paletteColors gl) (frameSlices gl)
            (transitionTime gl) (colors gl) (colorPanelIds gl) c.

(** What one call leaves behind: the buffer, [*nFrames], [*sleepTime] and the
    globals. *)
Record FrameOutput := mkOutput {
  out_frames : list Frame_t;
  out_nFrames : Z;
  out_sleepTime : Z;
  out_globals : Globals
}.

(** [getPluginFrame].  [frames] is the buffer of the caller and [sleepTime]
    the value that [*sleepTime] holds on entry. *)
Definition getPluginFrame (fuel : nat) (gl : Globals) (frames : list Frame_t)
           (sleepTime : Z) : result FrameOutput :=
  st <- resetPanels (colorPanelIds gl) (frameSlices gl) (mkScan frames 0 0 0 0) ;;
  painted <- setCurrentColor gl st sleepTime ;;
  next <- nextColor fuel (colorPanelIds gl) (currentColorIndex gl) ;;
  Ok (mkOutput (fst painted) (scan_index st) (snd painted)
               (setCurrentColorIndex gl next)).

(** ** The words of the specification *)

(** The middle index as the specification writes it: the ceiling of the
    rational number (N-1)/2. *)
Definition spec_middleIndex (N : Z) : Z :=
  Qceiling (inject_Z (N - 1) / inject_Z 2).

(** Slice [i] exists and holds at least three panels. *)
Definition qualifies (slices : list FrameSlice_t) (i : Z) : Prop :=
  exists s, at_index slices i = Ok s
            /\ MINIMUM_PANELS_COUNT <= Z.of_nat (length (panelIds s)).

Definition distance (middle i : Z) : Z := Z.abs (middle - i).

(** [chosen] is nearest to [middle] among the slices that satisfy [P], and
    the lowest index among the nearest ones. *)
Definition nearest_first (P : Z -> Prop) (middle chosen : Z) : Prop :=
  P chosen
  /\ forall j, P j ->
       distance middle chosen <= distance middle j
       /\ (distance middle j = distance middle chosen -> chosen <= j).

(** The choice of the slice as the specification states it. *)
Definition spec_choice (slices : list FrameSlice_t) (chosen : Z) : Prop :=
  let middle := middleFrameSliceIndex (Z.of_nat (length slices)) in
  ((exists j, qualifies slices j) ->
     nearest_first (qualifies slices) middle chosen)
  /\ ((forall j, ~ qualifies slices j) -> chosen = middle).

(** A qualifying slice that the search can accept: nearer than 31. *)
Definition in_reach (slices : list FrameSlice_t) (middle j : Z) : Prop :=
  qualifies slices j /\ distance middle j < 31.

(** What the loop knows after the slices below [k]: either nothing in reach
    was met and the state is the initial one, or the state holds the nearest
    qualifying slice met so far, the first of the nearest. *)
Definition search_inv (slices : list FrameSlice_t) (middle k : Z) (st : Z * Z) : Prop :=
  (snd st = -1 /\ fst st = 31
   /\ forall j, j < k -> ~ in_reach slices middle j)
  \/ (0 <= snd st < k /\ in_reach slices middle (snd st)
      /\ fst st = distance middle (snd st)
      /\ forall j, j < k -> qualifies slices j ->
           fst st <= distance middle j
           /\ (distance middle j = fst st -> snd st <= j)).

(** The centroid that the comparator finds for a panel identifier: the one of
    the last panel of the layout that carries it. *)
Fixpoint centroidY_from (panels : list Panel) (id : Z) (y : option Q) : option Q :=
  match panels with
  | [] => y
  | panel :: rest =>
      centroidY_from rest id
        (if panel_panelId panel =? id then Some (panel_centroid_y panel) else y)
  end.

Definition centroidY (layout : LayoutData) (id : Z) : option Q :=
  centroidY_from (panels layout) id None.

(** Panel [a] is not below panel [b]: both have a centroid, and the one of
    [a] is at least as high. *)
Definition not_below (layout : LayoutData) (a b : Z) : Prop :=
  exists ya yb, centroidY layout a = Some ya /\ centroidY layout b = Some yb
                /\ (yb <= ya)%Q.

(** Top to bottom: every panel is not below the ones after it. *)
Definition top_to_bottom (layout : LayoutData) (ids : list Z) : Prop :=
  StronglySorted (not_below layout) ids.

(** The sorted prefix of the insertion sort is kept from its last element to
    its first: read that way, no panel is above the ones after it. *)
Definition bottom_to_top (layout : LayoutData) (ids : list Z) : Prop :=
  StronglySorted (fun a c => not_below layout c a) ids.

(** The number of panels of the richest slice. *)
Definition richestPanelCount (slices : list FrameSlice_t) : Z :=
  fold_right Z.max 0 (map (fun s => Z.of_nat (length (panelIds s))) slices).

(** The binding on a layout whose richest slice has two panels, as the
    specification states it: red and green on the two panels of such a slice,
    the higher one red, and yellow ignored. *)
Definition spec_two_panel_binding (layout : LayoutData) (palette : list RGB_t)
           (slices : list FrameSlice_t) (transTime : option Z) : Prop :=
  richestPanelCount slices = 2 ->
  exists gl top bottom s,
    initPlugin layout palette slices transTime = Ok gl
    /\ colorPanelIds gl = [top; IGNORED_PANEL_ID; bottom]
    /\ In s slices /\ Permutation [top; bottom] (panelIds s)
    /\ not_below layout top bottom.

(** ** The frame buffer *)

(** All panel identifiers, slice after slice and in the order of each slice. *)
Definition allPanelIds (slices : list FrameSlice_t) : list Z :=
  concat (map panelIds slices).

(** The entry of a panel that is switched off. *)
Definition blackFrame (id : Z) : Frame_t := mkFrame id 0 0 0 1.

(** The entry of a panel that shows a colour. *)
Definition colorFrame (id : Z) (color : RGB_t) : Frame_t :=
  mkFrame id (R color) (G color) (B color) 1.

(** The position that the scan records for an identifier: the last position
    at which it occurs, counted from [index], and [found] when it does not
    occur. *)
Fixpoint lastIndexOf (id : Z) (ids : list Z) (index found : Z) : Z :=
  match ids with
  | [] => found
  | x :: rest => lastIndexOf id rest (index + 1) (if x =? id then index else found)
  end.

(** ** States of the driver *)

(** The slice sequence and the [transTime] option that [initPlugin] can be
    run on: the chosen slice exists, it is not empty, its identifiers are
    distinct, known to the layout and different from the ignored sentinel,
    and the option, when present, is an [int]. *)
Definition selectable (layout : LayoutData) (slices : list FrameSlice_t)
           (transTime : option Z) : Prop :=
  (exists chosen,
     at_index slices (middlestFrameSliceIndex slices) = Ok chosen
     /\ panelIds chosen <> []
     /\ NoDup (panelIds chosen)
     /\ (forall id, In id (panelIds chosen) -> centroidY layout id <> None)
     /\ ~ In IGNORED_PANEL_ID (panelIds chosen))
  /\ (forall t, transTime = Some t -> INT_MIN <= t <= INT_MAX).

(** The states that the host can observe: the one that [initPlugin] leaves,
    and the one after each call of [getPluginFrame] that returns, whatever
    buffer the call was given. *)
Inductive reachable (layout : LayoutData) (palette : list RGB_t)
          (slices : list FrameSlice_t) (transTime : option Z) : Globals -> Prop :=
| reach_init gl :
    initPlugin layout palette slices transTime = Ok gl ->
    reachable layout palette slices transTime gl
| reach_frame gl fuel frames sleepTime out :
    reachable layout palette slices transTime gl ->
    getPluginFrame fuel gl frames sleepTime = Ok out ->
    reachable layout palette slices transTime (out_globals out).

(** What holds of every such state: RED and GREEN are bound to panels of the
    slices, YELLOW is bound to one or ignored, there are three colours, the
    current colour is one of the three and is not ignored, and the transition
    time is an [int]. *)
Definition ready (gl : Globals) : Prop :=
  (exists red yellow green,
     colorPanelIds gl = [red; yellow; green]
     /\ In red (allPanelIds (frameSlices gl)) /\ red <> IGNORED_PANEL_ID
     /\ In green (allPanelIds (frameSlices gl)) /\ green <> IGNORED_PANEL_ID
     /\ (yellow = IGNORED_PANEL_ID \/ In yellow (allPanelIds (frameSlices gl))))
  /\ length (colors gl) = 3%nat
  /\ (exists id, at_index (colorPanelIds gl) (currentColorIndex gl) = Ok id
                 /\ id <> IGNORED_PANEL_ID)
  /\ INT_MIN <= transitionTime gl <= INT_MAX.

(** The sleep time that a call reports. *)
Definition sleepTimeOf (gl : Globals) : Z :=
  if currentColorIndex gl =? YELLOW then Z.quot (2 * transitionTime gl) 5
  else transitionTime gl.

(** The entries of the reported frames that are not black. *)
Definition isBlack (f : Frame_t) : bool :=
  (r f =? 0) && (g f =? 0) && (b f =? 0).

Definition litFrames (out : FrameOutput) : list Frame_t :=
  filter (fun f => negb (isBlack f))
         (firstn (Z.to_nat (out_nFrames out)) (out_frames out)).

(** Exactly one reported entry is not black: the statement of the
    specification. *)
Definition spec_one_lit (out : FrameOutput) : Prop :=
  length (litFrames out) = 1%nat.

(** A rational number with its fraction dropped, as the conversion of a
    [double] to [int] does. *)
Definition Qtruncate (x : Q) : Z :=
  if Qle_bool 0 x then Qfloor x else Qceiling x.

(** The sleep time as the specification states it: the transition time for
    red and green, and four tenths of it, a rational number, for yellow. *)
Definition spec_sleepTime (gl : Globals) (sleepTime : Z) : Prop :=
  if currentColorIndex gl =? YELLOW
  then (inject_Z sleepTime == (4 # 10) * inject_Z (transitionTime gl))%Q
  else sleepTime = transitionTime gl.

(** The colours that [n] calls in a row show, the buffer and the sleep time
    cell of each call being the ones that the call before left. *)
Fixpoint activeSlots (fuel : nat) (n : nat) (gl : Globals)
         (frames : list Frame_t) (sleepTime : Z) : result (list Z) :=
  match n with
  | O => Ok []
  | S n' =>
      out <- getPluginFrame fuel gl frames sleepTime ;;
      later <- activeSlots fuel n' (out_globals out) (out_frames out)
                           (out_sleepTime out) ;;
      Ok (currentColorIndex gl :: later)
  end.

(** ** The examples *)

(** Five panels at different heights. *)
Definition five_panels : LayoutData :=
  mkLayout [mkPanel 1 (1 # 2); mkPanel 2 (3 # 2); mkPanel 3 0;
            mkPanel 4 5; mkPanel 5 (-1 # 1)].

(** A middle slice of three panels between two single panels. *)
Definition tall_middle : list FrameSlice_t :=
  [mkSlice [1]; mkSlice [3; 2; 5]; mkSlice [4]].

(** A slice of two panels to the left of the middle slice, which has one. *)
Definition pair_on_the_left : list FrameSlice_t :=
  [mkSlice [1; 2]; mkSlice [3]; mkSlice [4]].

(** A middle slice of two panels. *)
Definition pair_in_the_middle : list FrameSlice_t :=
  [mkSlice [1]; mkSlice [3; 2]; mkSlice [4]].

(** 62 slices, the first 61 with a single panel and the last with three. *)
Definition far_slices : list FrameSlice_t :=
  map (fun i => mkSlice [i]) (map Z.of_nat (seq 0 61)) ++ [mkSlice [100; 101; 102]].

(** A buffer of six entries, one more than there are panels. *)
Definition example_buffer : list Frame_t := repeat (mkFrame 0 9 9 9 9) 6.

(** What the selector leaves on [tall_middle] and on [pair_in_the_middle],
    and the first with yellow current. *)
Definition tall_middle_start : Globals :=
  mkGlobals five_panels [] tall_middle 50 defaultColors [2; 3; 5] RED.

Definition tall_middle_yellow : Globals :=
  setCurrentColorIndex tall_middle_start YELLOW.

Definition pair_start : Globals :=
  mkGlobals five_panels [] pair_in_the_middle 50 defaultColors
            [2; IGNORED_PANEL_ID; 3] RED.

(** The same layout with a palette whose first colour is black, and with a
    transition time of 3 ms. *)
Definition black_red_start : Globals :=
  mkGlobals five_panels [mkRGB 0 0 0] tall_middle 50
            [mkRGB 0 0 0; mkRGB 255 255 0; mkRGB 0 255 0] [2; 3; 5] RED.

Definition three_ms_yellow : Globals :=
  mkGlobals five_panels [] tall_middle 3 defaultColors [2; 3; 5] YELLOW.

(** The example of the specification: five slices of one panel each, at the
    heights 0 to 4. *)
Definition spec_example_layout : LayoutData :=
  mkLayout [mkPanel 10 0; mkPanel 20 1; mkPanel 30 2; mkPanel 40 3; mkPanel 50 4].

Definition spec_example_slices : list FrameSlice_t :=
  [mkSlice [10]; mkSlice [20]; mkSlice [30]; mkSlice [40]; mkSlice [50]].

(** A slice of four panels to the right of a single panel. *)
Definition four_on_the_right : list FrameSlice_t :=
  [mkSlice [1]; mkSlice [3; 2; 5; 4]].

(** A layout whose only panel carries the number of the ignored sentinel. *)
Definition lone_sentinel_layout : LayoutData := mkLayout [mkPanel (-1) 0].

Definition lone_sentinel_slices : list FrameSlice_t :=
  [mkSlice [IGNORED_PANEL_ID]].

(** Panel 2 in two slices. *)
Definition panel_twice : list FrameSlice_t :=
  [mkSlice [2]; mkSlice [3; 2; 5]; mkSlice [4]].

(** * Properties *)

(** ** Vectors *)

Lemma at_index_Ok {A : Type} (v : list A) (i : Z) (a : A) :
  at_index v i = Ok a <-> 0 <= i /\ nth_error v (Z.to_nat i) = Some a.
Proof.
  unfold at_index. destruct (Z.ltb_spec i 0).
  - split; [discriminate | lia].
  - destruct (nth_error v (Z.to_nat i)) eqn:E; split.
    + intros [= ->]. auto.
    + intros [_ [= ->]]. reflexivity.
    + discriminate.
    + intros [_ [=]].
Qed.

Lemma at_index_bounds {A : Type} (v : list A) (i : Z) (a : A) :
  at_index v i = Ok a -> 0 <= i < Z.of_nat (length v).
Proof.
  intros H. apply at_index_Ok in H as [H0 H].
  assert (Z.to_nat i < length v)%nat by (apply nth_error_Some; congruence).
  lia.
Qed.

Lemma at_index_defined {A : Type} (v : list A) (i : Z) :
  0 <= i < Z.of_nat (length v) -> exists a, at_index v i = Ok a.
Proof.
  intros H. destruct (nth_error v (Z.to_nat i)) eqn:E.
  - exists a. apply at_index_Ok. split; [lia | assumption].
  - apply nth_error_None in E. lia.
Qed.

Lemma at_index_app_here {A : Type} (pre : list A) (a : A) (rest : list A) :
  at_index (pre ++ a :: rest) (Z.of_nat (length pre)) = Ok a.
Proof.
  apply at_index_Ok. split; [lia |].
  rewrite Nat2Z.id, nth_error_app2, Nat.sub_diag by lia. reflexivity.
Qed.

(** ** The middle frame slice *)

Lemma middleFrameSliceIndex_floor (N : Z) :
  1 <= N -> middleFrameSliceIndex N = (N - 1) / 2.
Proof.
  intros H. unfold middleFrameSliceIndex, ceil_of_int.
  apply Z.quot_div_nonneg; lia.
Qed.

Lemma spec_middleIndex_half (N : Z) : spec_middleIndex N = N / 2.
Proof.
  unfold spec_middleIndex, Qceiling, Qfloor, Qdiv, Qmult, Qopp, Qinv, inject_Z.
  cbn. rewrite !Z.mul_1_r.
  assert (E : N = 2 * (N / 2) + N mod 2) by (apply Z.div_mod; lia).
  assert (M : 0 <= N mod 2 < 2) by (apply Z.mod_pos_bound; lia).
  assert (D : (- (N - 1)) / 2 = - (N / 2)).
  { symmetry. apply (Z.div_unique _ _ _ (1 - N mod 2)); lia. }
  rewrite D. lia.
Qed.

Lemma middleFrameSliceIndex_range (N : Z) :
  1 <= N -> 0 <= middleFrameSliceIndex N < N.
Proof.
  intros H. rewrite middleFrameSliceIndex_floor by assumption.
  split; [apply Z.div_pos; lia | apply Z.div_lt_upper_bound; lia].
Qed.

(** On an odd number of slices the code and the specification agree; on an
    even number the code is one below. *)
Lemma middleFrameSliceIndex_parity (N : Z) :
  1 <= N ->
  middleFrameSliceIndex N =
  if Z.even N then spec_middleIndex N - 1 else spec_middleIndex N.
Proof.
  intros H. rewrite middleFrameSliceIndex_floor, spec_middleIndex_half by assumption.
  assert (E : N = 2 * (N / 2) + N mod 2) by (apply Z.div_mod; lia).
  assert (M : 0 <= N mod 2 < 2) by (apply Z.mod_pos_bound; lia).
  destruct (Z.even N) eqn:Ev.
  - assert (N mod 2 = 0).
    { apply Zeven_bool_iff, Zeven_ex_iff in Ev as [k ->].
      rewrite Z.mul_comm. apply Z_mod_mult. }
    symmetry. apply (Z.div_unique _ _ _ 1); lia.
  - assert (N mod 2 = 1).
    { rewrite <- Z.negb_odd in Ev. apply negb_false_iff in Ev.
      apply Zodd_bool_iff, Zodd_ex_iff in Ev as [k ->].
      rewrite Z.add_comm, Z.mul_comm, Z_mod_plus_full. reflexivity. }
    symmetry. apply (Z.div_unique _ _ _ 0); lia.
Qed.

(** C2, at a failing input.  With two slices (and with four) the code's
    middle index is one below the ceiling of (N-1)/2 of the specification:
    the integer division has already rounded down when [ceil] is applied. *)
Theorem middleFrameSliceIndex_even_count :
  middleFrameSliceIndex 2 = 0 /\ spec_middleIndex 2 = 1
  /\ middleFrameSliceIndex 4 = 1 /\ spec_middleIndex 4 = 2.
Proof. repeat split. Qed.

(** ** The search for the middlest slice *)

Lemma qualifies_here (pre : list FrameSlice_t) (s : FrameSlice_t) (rest : list FrameSlice_t) :
  qualifies (pre ++ s :: rest) (Z.of_nat (length pre))
  <-> MINIMUM_PANELS_COUNT <= Z.of_nat (length (panelIds s)).
Proof.
  unfold qualifies. rewrite at_index_app_here. split.
  - intros (s' & [= <-] & H). exact H.
  - intros H. exists s. auto.
Qed.

Lemma qualifies_bounds (slices : list FrameSlice_t) (j : Z) :
  qualifies slices j -> 0 <= j < Z.of_nat (length slices).
Proof. intros (s & H & _). eapply at_index_bounds; eassumption. Qed.

Lemma searchMiddlest_inv (slices : list FrameSlice_t) (middle : Z) :
  forall rest pre st,
    slices = pre ++ rest ->
    search_inv slices middle (Z.of_nat (length pre)) st ->
    search_inv slices middle (Z.of_nat (length slices))
               (searchMiddlest middle rest (Z.of_nat (length pre)) st).
Proof.
  induction rest as [| s rest IH]; intros pre st E Inv.
  - rewrite app_nil_r in E. subst pre. exact Inv.
  - cbn [searchMiddlest].
    assert (E' : slices = (pre ++ [s]) ++ rest) by (rewrite <- app_assoc; exact E).
    assert (L : Z.of_nat (length pre) + 1 = Z.of_nat (length (pre ++ [s]))).
    { rewrite length_app. cbn. lia. }
    rewrite L. apply IH; [exact E' |]. rewrite <- L. clear IH L E'.
    set (k := Z.of_nat (length pre)) in *.
    assert (Q : qualifies slices k
                <-> MINIMUM_PANELS_COUNT <= Z.of_nat (length (panelIds s))).
    { subst slices. apply qualifies_here. }
    destruct (Z.leb_spec MINIMUM_PANELS_COUNT (Z.of_nat (length (panelIds s))))
      as [Hc | Hc]; cbn [andb].
    + apply Q in Hc.
      destruct (Z.ltb_spec (Z.abs (middle - k)) (fst st)) as [Hd | Hd].
      * (* the slice at [k] becomes the middlest *)
        right. cbn [fst snd]. fold (distance middle k) in *.
        assert (D31 : distance middle k < 31).
        { destruct Inv as [(_ & F & _) | (_ & (_ & R) & F & _)]; lia. }
        repeat split; try lia; try assumption.
        -- destruct (Z.eq_dec j k) as [-> | Hjk]; [lia |].
           destruct Inv as [(_ & F & No) | (_ & _ & _ & Best)].
           ++ assert (~ distance middle j < 31).
              { intros Hj. apply (No j); [lia | split; assumption]. }
              lia.
           ++ destruct (Best j) as [B _]; [lia | assumption | lia].
        -- intros Ej. destruct (Z.eq_dec j k) as [-> | Hjk]; [lia |].
           destruct Inv as [(_ & F & No) | (_ & _ & _ & Best)].
           ++ exfalso. apply (No j); [lia | split; [assumption | lia]].
           ++ destruct (Best j) as [B _]; [lia | assumption | lia].
      * (* a qualifying slice that is not nearer: the state stays *)
        fold (distance middle k) in *.
        destruct Inv as [(S & F & No) | (Rg & In & F & Best)]; [left | right].
        -- repeat split; try assumption. intros j Hj [Hq Hr].
           destruct (Z.eq_dec j k) as [-> | Hjk]; [lia |].
           apply (No j); [lia | split; assumption].
        -- repeat split; try lia; try apply In; try assumption.
           ++ destruct (Z.eq_dec j k) as [-> | Hjk]; [lia |].
              apply (Best j); [lia | assumption].
           ++ destruct (Z.eq_dec j k) as [-> | Hjk]; [lia |].
              apply (Best j); [lia | assumption].
    + (* fewer than three panels: the state stays *)
      assert (NQ : ~ qualifies slices k) by (rewrite Q; lia).
      destruct Inv as [(S & F & No) | (Rg & In & F & Best)]; [left | right].
      * repeat split; try assumption. intros j Hj [Hq Hr].
        destruct (Z.eq_dec j k) as [-> | Hjk]; [contradiction |].
        apply (No j); [lia | split; assumption].
      * repeat split; try lia; try apply In; try assumption.
        -- destruct (Z.eq_dec j k) as [-> | Hjk]; [contradiction |].
           apply (Best j); [lia | assumption].
        -- destruct (Z.eq_dec j k) as [-> | Hjk]; [contradiction |].
           apply (Best j); [lia | assumption].
Qed.

Lemma searchMiddlest_result (slices : list FrameSlice_t) (middle : Z) :
  search_inv slices middle (Z.of_nat (length slices))
             (searchMiddlest middle slices 0 (31, -1)).
Proof.
  apply (searchMiddlest_inv slices middle slices [] (31, -1)); [reflexivity |].
  left. cbn. repeat split. intros j Hj [Hq _].
  apply qualifies_bounds in Hq. lia.
Qed.

(** C3, as amended.  The search accepts a slice only when it is nearer to
    the middle than 31.  When some slice with at least three panels is that
    near, the chosen slice is the nearest of all slices with at least three
    panels, and the one with the lowest index among the nearest; when no such
    slice is that near, the chosen slice is the one at the middle index. *)
Theorem middlestFrameSliceIndex_nearest_in_reach (slices : list FrameSlice_t) :
  let middle := middleFrameSliceIndex (Z.of_nat (length slices)) in
  let chosen := middlestFrameSliceIndex slices in
  ((exists j, in_reach slices middle j) ->
     distance middle chosen < 31
     /\ nearest_first (qualifies slices) middle chosen)
  /\ ((forall j, ~ in_reach slices middle j) -> chosen = middle).
Proof.
  intros middle chosen. subst chosen. unfold middlestFrameSliceIndex.
  fold middle.
  pose proof (searchMiddlest_result slices middle) as Inv.
  destruct (searchMiddlest middle slices 0 (31, -1)) as [d found].
  unfold search_inv in Inv. cbn [fst snd] in *. split.
  - intros [j Hj].
    destruct Inv as [(_ & _ & No) | (Rg & [Hq Hr] & F & Best)].
    + exfalso. apply (No j); [| exact Hj].
      destruct Hj as [Hj _]. apply qualifies_bounds in Hj. lia.
    + destruct (Z.eqb_spec found (-1)) as [E | _]; [lia |].
      split; [exact Hr |]. split; [exact Hq |].
      intros i Hi. rewrite <- F. apply Best; [| exact Hi].
      apply qualifies_bounds in Hi. lia.
  - intros No.
    destruct Inv as [(S & _ & _) | (_ & In & _)].
    + subst found. reflexivity.
    + exfalso. exact (No _ In).
Qed.

(** C3, counterexample.  With 62 slices of which only the last has three
    panels, that slice is 31 away from the middle index 30: the tracker that
    starts at 31 is not replaced and the single-panel middle slice is chosen,
    although a slice with three panels exists. *)
Lemma middlestFrameSliceIndex_far_slice_missed :
  middleFrameSliceIndex (Z.of_nat (length far_slices)) = 30
  /\ qualifies far_slices 61
  /\ middlestFrameSliceIndex far_slices = 30
  /\ at_index far_slices 30 = Ok (mkSlice [30])
  /\ ~ spec_choice far_slices (middlestFrameSliceIndex far_slices).
Proof.
  assert (Q : qualifies far_slices 61).
  { exists (mkSlice [100; 101; 102]).
    split; [reflexivity | unfold MINIMUM_PANELS_COUNT; cbn; lia]. }
  split; [reflexivity |]. split; [exact Q |].
  split; [vm_compute; reflexivity |]. split; [reflexivity |].
  intros [H _].
  destruct H as [(s & Hs & Hn) _]; [exists 61; exact Q |].
  vm_compute in Hs. injection Hs as <-. vm_compute in Hn. apply Hn. reflexivity.
Qed.

(** ** The comparator *)

Lemma lookupCentroids_distinct (ps : list Panel) (a c : Z) :
  a <> c ->
  forall ys,
    lookupCentroids ps a c ys
    = (centroidY_from ps a (fst ys), centroidY_from ps c (snd ys)).
Proof.
  intros Hac. induction ps as [| p ps IH]; intros [ya yc]; [reflexivity |].
  cbn [lookupCentroids centroidY_from fst snd]. rewrite IH.
  destruct (Z.eqb_spec (panel_panelId p) a) as [Ea | Ea].
  - destruct (Z.eqb_spec (panel_panelId p) c) as [Ec | Ec]; [congruence |].
    reflexivity.
  - destruct (Z.eqb_spec (panel_panelId p) c); reflexivity.
Qed.

Lemma lookupCentroids_same (ps : list Panel) (a : Z) :
  forall ys, snd (lookupCentroids ps a a ys) = snd ys.
Proof.
  induction ps as [| p ps IH]; intros [ya yc]; [reflexivity |].
  cbn [lookupCentroids]. rewrite IH.
  destruct (Z.eqb_spec (panel_panelId p) a); reflexivity.
Qed.

Lemma higherPanel_distinct (layout : LayoutData) (a c : Z) (ya yc : Q) :
  a <> c -> centroidY layout a = Some ya -> centroidY layout c = Some yc ->
  higherPanel layout a c = Ok (Qgtb ya yc).
Proof.
  intros Hac Ha Hc. unfold higherPanel.
  rewrite lookupCentroids_distinct by assumption. cbn [fst snd].
  unfold centroidY in Ha, Hc. rewrite Ha, Hc. reflexivity.
Qed.

(** The comparator has a result only on two different identifiers that the
    layout both knows. *)
Lemma higherPanel_Ok (layout : LayoutData) (a c : Z) (res : bool) :
  higherPanel layout a c = Ok res ->
  a <> c /\ exists ya yc, centroidY layout a = Some ya
                          /\ centroidY layout c = Some yc
                          /\ res = Qgtb ya yc.
Proof.
  unfold higherPanel. intros H.
  destruct (Z.eq_dec a c) as [-> | Hac].
  - pose proof (lookupCentroids_same (panels layout) c (None, None)) as S.
    destruct (lookupCentroids (panels layout) c c (None, None)) as [[y |] [y' |]];
      cbn in S; discriminate.
  - split; [assumption |].
    rewrite lookupCentroids_distinct in H by assumption. cbn [fst snd] in H.
    fold (centroidY layout a) in H. fold (centroidY layout c) in H.
    destruct (centroidY layout a) as [ya |]; [| discriminate].
    destruct (centroidY layout c) as [yc |]; [| discriminate].
    injection H as <-. exists ya, yc. auto.
Qed.

Lemma Qgtb_true (x y : Q) : Qgtb x y = true -> (y <= x)%Q.
Proof.
  unfold Qgtb. intros H. apply negb_true_iff in H.
  apply Qlt_le_weak, Qnot_le_lt. intros L.
  apply Qle_bool_iff in L. congruence.
Qed.

Lemma Qgtb_false (x y : Q) : Qgtb x y = false -> (x <= y)%Q.
Proof.
  unfold Qgtb. intros H. apply negb_false_iff in H.
  apply Qle_bool_iff. assumption.
Qed.

Lemma not_below_trans (layout : LayoutData) (a c d : Z) :
  not_below layout a c -> not_below layout c d -> not_below layout a d.
Proof.
  intros (ya & yc & Ha & Hc & L1) (yc' & yd & Hc' & Hd & L2).
  rewrite Hc in Hc'. injection Hc' as <-.
  exists ya, yd. repeat split; try assumption.
  eapply Qle_trans; eassumption.
Qed.

(** ** The sort *)

Lemma linear_insert_perm (comp : Z -> Z -> result bool) (val : Z) :
  forall sortedRev out,
    linear_insert comp val sortedRev = Ok out ->
    Permutation out (val :: sortedRev).
Proof.
  induction sortedRev as [| next rest IH]; intros out H.
  - injection H as <-. reflexivity.
  - cbn [linear_insert] in H.
    destruct (comp val next) as [[|] | |]; try discriminate; cbn [bind] in H.
    + destruct (linear_insert comp val rest) as [moved | |]; try discriminate.
      injection H as <-. rewrite (IH moved eq_refl). apply perm_swap.
    + injection H as <-. reflexivity.
Qed.

Section Sort.
Variable layout : LayoutData.

Lemma linear_insert_sorted (val : Z) :
  forall sortedRev out,
    linear_insert (higherPanel layout) val sortedRev = Ok out ->
    bottom_to_top layout sortedRev ->
    Permutation out (val :: sortedRev)
    /\ bottom_to_top layout out.
Proof.
  induction sortedRev as [| next rest IH]; intros out H S.
  - injection H as <-. split; [reflexivity |].
    constructor; constructor.
  - cbn [linear_insert] in H.
    destruct (higherPanel layout val next) as [c | |] eqn:Hc; try discriminate.
    cbn [bind] in H.
    apply higherPanel_Ok in Hc as (_ & yv & yn & Hv & Hn & ->).
    inversion S as [| ? ? Srest Fnext]; subst.
    destruct (Qgtb yv yn) eqn:Cmp.
    + destruct (linear_insert (higherPanel layout) val rest) as [moved | |] eqn:Hm;
        try discriminate.
      injection H as <-.
      destruct (IH moved eq_refl Srest) as [P Sm].
      split.
      * rewrite P. apply perm_swap.
      * constructor; [assumption |].
        eapply Permutation_Forall; [symmetry; exact P |].
        constructor; [| assumption].
        exists yv, yn. repeat split; try assumption. apply Qgtb_true, Cmp.
    + injection H as <-. split; [reflexivity |].
      constructor; [assumption |].
      assert (V : not_below layout next val).
      { exists yn, yv. repeat split; try assumption. apply Qgtb_false, Cmp. }
      constructor; [assumption |].
      eapply Forall_impl; [| exact Fnext].
      intros z Hz. cbn in Hz. eapply not_below_trans; eassumption.
Qed.

Lemma linear_insert_defined (val : Z) :
  forall sortedRev,
    centroidY layout val <> None ->
    (forall id, In id sortedRev -> centroidY layout id <> None) ->
    ~ In val sortedRev ->
    exists out, linear_insert (higherPanel layout) val sortedRev = Ok out.
Proof.
  induction sortedRev as [| next rest IH]; intros Hv Hall Hnot.
  - eexists. reflexivity.
  - cbn [linear_insert].
    destruct (centroidY layout val) as [yv |] eqn:Ev; [| congruence].
    destruct (centroidY layout next) as [yn |] eqn:En;
      [| exfalso; apply (Hall next); [left; reflexivity | assumption]].
    rewrite (higherPanel_distinct layout val next yv yn);
      [| intros ->; apply Hnot; left; reflexivity | assumption | assumption].
    cbn [bind]. destruct (Qgtb yv yn); [| eexists; reflexivity].
    destruct IH as [moved ->].
    + congruence.
    + intros id Hid. apply Hall. right. assumption.
    + intros Hin. apply Hnot. right. assumption.
    + eexists. reflexivity.
Qed.

Lemma top_to_bottom_snoc (l : list Z) (a : Z) :
  top_to_bottom layout l -> Forall (fun c => not_below layout c a) l ->
  top_to_bottom layout (l ++ [a]).
Proof.
  unfold top_to_bottom. induction 1 as [| x xs Sx IHx Fx]; intros F.
  - constructor; constructor.
  - cbn [app]. inversion F; subst.
    constructor; [apply IHx; assumption |].
    apply Forall_app. split; [assumption |].
    constructor; [assumption | constructor].
Qed.

Lemma bottom_to_top_rev (l : list Z) :
  bottom_to_top layout l -> top_to_bottom layout (rev l).
Proof.
  induction 1 as [| a l S IH F]; [constructor |].
  cbn [rev]. apply top_to_bottom_snoc; [assumption |].
  apply Forall_rev. assumption.
Qed.

Lemma insertion_sort_sorted :
  forall rest sortedRev out,
    insertion_sort (higherPanel layout) sortedRev rest = Ok out ->
    bottom_to_top layout sortedRev ->
    Permutation out (rev sortedRev ++ rest) /\ top_to_bottom layout out.
Proof.
  induction rest as [| val rest IH]; intros sortedRev out H S.
  - injection H as <-. rewrite app_nil_r. split; [reflexivity |].
    apply bottom_to_top_rev. assumption.
  - cbn [insertion_sort] in H.
    destruct (linear_insert (higherPanel layout) val sortedRev) as [s' | |] eqn:Hi;
      try discriminate.
    cbn [bind] in H.
    destruct (linear_insert_sorted val sortedRev s' Hi S) as [P S'].
    destruct (IH s' out H S') as [P' So]. split; [| assumption].
    rewrite P'. apply Permutation_trans with ((val :: rev sortedRev) ++ rest).
    * apply Permutation_app_tail. rewrite <- Permutation_rev, P.
      constructor. apply Permutation_rev.
    * cbn [app]. apply Permutation_middle.
Qed.

Lemma insertion_sort_defined :
  forall rest sortedRev,
    (forall id, In id (sortedRev ++ rest) -> centroidY layout id <> None) ->
    NoDup (sortedRev ++ rest) ->
    exists out, insertion_sort (higherPanel layout) sortedRev rest = Ok out.
Proof.
  induction rest as [| val rest IH]; intros sortedRev Hall Hnd.
  - eexists. reflexivity.
  - cbn [insertion_sort].
    destruct (linear_insert_defined val sortedRev) as [s' Hs'].
    + apply Hall. apply in_or_app. right. left. reflexivity.
    + intros id Hid. apply Hall. apply in_or_app. left. assumption.
    + apply NoDup_remove_2 in Hnd. intros Hin. apply Hnd.
      apply in_or_app. left. assumption.
    + rewrite Hs'. cbn [bind].
      assert (P : Permutation (s' ++ rest) (sortedRev ++ val :: rest)).
      { rewrite (linear_insert_perm _ _ _ _ Hs'). cbn [app].
        apply Permutation_middle. }
      apply IH.
      * intros id Hid. apply Hall. eapply Permutation_in; eassumption.
      * eapply Permutation_NoDup; [symmetry; exact P | assumption].
Qed.

(** [std::sort] with the comparator of the plugin, on distinct identifiers
    that the layout knows, returns them top to bottom. *)
Lemma std_sort_top_to_bottom (ids : list Z) :
  NoDup ids ->
  (forall id, In id ids -> centroidY layout id <> None) ->
  exists sorted,
    std_sort (higherPanel layout) ids = Ok sorted
    /\ Permutation sorted ids
    /\ top_to_bottom layout sorted.
Proof.
  intros Hnd Hall. unfold std_sort.
  destruct (insertion_sort_defined ids []) as [sorted Hs]; try assumption.
  exists sorted. split; [assumption |].
  apply (insertion_sort_sorted ids [] sorted Hs). constructor.
Qed.

End Sort.

(** ** The selector *)

(** The colours after the loop: the first three of the palette, and the
    defaults where the palette has none. *)
Lemma loadUserColors_defaults (palette : list RGB_t) :
  loadUserColors 4 palette 0 defaultColors
  = Ok (firstn 3 palette ++ skipn (length (firstn 3 palette)) defaultColors).
Proof.
  destruct palette as [| c0 [| c1 [| c2 rest]]]; try reflexivity.
  assert (M : Z.min MINIMUM_PANELS_COUNT
                    (Z.of_nat (length (c0 :: c1 :: c2 :: rest))) = 3).
  { unfold MINIMUM_PANELS_COUNT. cbn [length]. lia. }
  cbn [loadUserColors]. rewrite M. reflexivity.
Qed.

Lemma bindColorPanelIds_cases (sorted : list Z) :
  bindColorPanelIds sorted =
  match sorted with
  | p0 :: p1 :: p2 :: _ => Ok [p0; p1; p2]
  | [p0; p1] => Ok [p0; IGNORED_PANEL_ID; p1]
  | [p0] => Ok [p0; p0; p0]
  | [] => Undefined
  end.
Proof.
  destruct sorted as [| p0 [| p1 [| p2 rest]]]; try reflexivity.
  unfold bindColorPanelIds.
  destruct (Z.leb_spec 3 (Z.of_nat (length (p0 :: p1 :: p2 :: rest)))) as [_ | H].
  - reflexivity.
  - cbn [length] in H. lia.
Qed.

(** When nothing is in reach of the search, the middle slice is used. *)
Lemma middlestFrameSliceIndex_fallback (slices : list FrameSlice_t) :
  (forall j, ~ in_reach slices (middleFrameSliceIndex (Z.of_nat (length slices))) j) ->
  middlestFrameSliceIndex slices = middleFrameSliceIndex (Z.of_nat (length slices)).
Proof.
  intros No. unfold middlestFrameSliceIndex.
  pose proof (searchMiddlest_result slices
                (middleFrameSliceIndex (Z.of_nat (length slices)))) as Inv.
  destruct (searchMiddlest _ slices 0 (31, -1)) as [d found].
  unfold search_inv in Inv. cbn [fst snd] in *.
  destruct Inv as [(S & _ & _) | (_ & In & _)].
  - subst found. reflexivity.
  - exfalso. exact (No _ In).
Qed.

(** The chosen index is an index of the slice sequence. *)
Lemma middlestFrameSliceIndex_range (slices : list FrameSlice_t) :
  slices <> [] ->
  0 <= middlestFrameSliceIndex slices < Z.of_nat (length slices).
Proof.
  intros Hne.
  assert (L : 1 <= Z.of_nat (length slices)).
  { destruct slices; [congruence | cbn [length]; lia]. }
  pose proof (middleFrameSliceIndex_range _ L) as M.
  unfold middlestFrameSliceIndex.
  pose proof (searchMiddlest_result slices
                (middleFrameSliceIndex (Z.of_nat (length slices)))) as Inv.
  destruct (searchMiddlest _ slices 0 (31, -1)) as [d found].
  unfold search_inv in Inv. cbn [fst snd] in *.
  destruct Inv as [(-> & _ & _) | (Rg & _)].
  - exact M.
  - destruct (Z.eqb_spec found (-1)); [exact M | exact Rg].
Qed.

(** The selector on a chosen slice that is not empty, and whose identifiers
    are distinct and known to the layout: it has a result, made of the sorted
    panels of the slice. *)
Lemma initPlugin_result (layout : LayoutData) (palette : list RGB_t)
      (slices : list FrameSlice_t) (transTime : option Z) (chosen : FrameSlice_t) :
  at_index slices (middlestFrameSliceIndex slices) = Ok chosen ->
  NoDup (panelIds chosen) ->
  (forall id, In id (panelIds chosen) -> centroidY layout id <> None) ->
  exists sorted,
    middlestPanelIds layout slices = Ok sorted
    /\ Permutation sorted (panelIds chosen)
    /\ top_to_bottom layout sorted
    /\ initPlugin layout palette slices transTime
       = (ids <- bindColorPanelIds sorted ;;
          Ok (mkGlobals layout palette slices
                        (match transTime with Some t => t | None => 50 end)
                        (firstn 3 palette
                         ++ skipn (length (firstn 3 palette)) defaultColors)
                        ids RED)).
Proof.
  intros Hc Hnd Hall.
  destruct (std_sort_top_to_bottom layout (panelIds chosen) Hnd Hall)
    as (sorted & Hs & P & S).
  exists sorted. unfold initPlugin, middlestPanelIds.
  rewrite loadUserColors_defaults, Hc. cbn [bind]. rewrite Hs. cbn [bind].
  auto.
Qed.

(** C1.  On a chosen slice that is not empty, with distinct identifiers known
    to the layout, the selector sorts the identifiers of the slice top to
    bottom (a permutation of them in which no panel is below a later one) and
    binds the slots from the sorted sequence: its first three identifiers to
    RED, YELLOW and GREEN when there are at least three; the first to RED,
    the ignored sentinel to YELLOW and the second to GREEN when there are
    two; the single identifier to all three slots when there is one. *)
Theorem initPlugin_binds_sorted_panels (layout : LayoutData) (palette : list RGB_t)
        (slices : list FrameSlice_t) (transTime : option Z) (chosen : FrameSlice_t) :
  at_index slices (middlestFrameSliceIndex slices) = Ok chosen ->
  panelIds chosen <> [] ->
  NoDup (panelIds chosen) ->
  (forall id, In id (panelIds chosen) -> centroidY layout id <> None) ->
  exists sorted gl,
    middlestPanelIds layout slices = Ok sorted
    /\ Permutation sorted (panelIds chosen)
    /\ top_to_bottom layout sorted
    /\ initPlugin layout palette slices transTime = Ok gl
    /\ currentColorIndex gl = RED
    /\ colorPanelIds gl =
       match sorted with
       | p0 :: p1 :: p2 :: _ => [p0; p1; p2]
       | [p0; p1] => [p0; IGNORED_PANEL_ID; p1]
       | [p0] => [p0; p0; p0]
       | [] => []
       end.
Proof.
  intros Hc Hne Hnd Hall.
  destruct (initPlugin_result layout palette slices transTime chosen Hc Hnd Hall)
    as (sorted & Hm & P & S & ->).
  exists sorted. rewrite bindColorPanelIds_cases.
  assert (sorted <> []).
  { intros ->. apply Permutation_nil in P. congruence. }
  destruct sorted as [| p0 [| p1 [| p2 rest]]]; [congruence | | |];
    cbn [bind]; eexists; repeat split; assumption.
Qed.

Ltac known_panels :=
  let id := fresh "id" in
  let H := fresh "H" in
  intros id H; cbn in H;
  repeat (destruct H as [<- | H]; [vm_compute; discriminate |]);
  contradiction.

Ltac distinct_panels :=
  repeat (constructor;
          [ let H := fresh "H" in
            cbn; intros H;
            repeat (destruct H as [H | H]; [discriminate H |]);
            contradiction
          | ]);
  constructor.

(** C1 on the three panels of the middle slice of [tall_middle]. *)
Lemma initPlugin_binds_sorted_panels_witness :
  exists sorted gl,
    middlestPanelIds five_panels tall_middle = Ok sorted
    /\ Permutation sorted [3; 2; 5]
    /\ top_to_bottom five_panels sorted
    /\ initPlugin five_panels [] tall_middle None = Ok gl
    /\ currentColorIndex gl = RED
    /\ colorPanelIds gl =
       match sorted with
       | p0 :: p1 :: p2 :: _ => [p0; p1; p2]
       | [p0; p1] => [p0; IGNORED_PANEL_ID; p1]
       | [p0] => [p0; p0; p0]
       | [] => []
       end.
Proof.
  apply (initPlugin_binds_sorted_panels five_panels [] tall_middle None
                                        (mkSlice [3; 2; 5])).
  - reflexivity.
  - discriminate.
  - distinct_panels.
  - known_panels.
Defined.

Lemma richestPanelCount_bound (slices : list FrameSlice_t) (s : FrameSlice_t) :
  In s slices -> Z.of_nat (length (panelIds s)) <= richestPanelCount slices.
Proof.
  unfold richestPanelCount.
  induction slices as [| x xs IH]; [contradiction |].
  intros [-> | H]; cbn [map fold_right]; [lia |].
  specialize (IH H). lia.
Qed.

Lemma at_index_In {A : Type} (v : list A) (i : Z) (a : A) :
  at_index v i = Ok a -> In a v.
Proof.
  intros H. apply at_index_Ok in H as [_ H]. eapply nth_error_In; eassumption.
Qed.

(** Without a slice of three panels nothing qualifies. *)
Lemma no_slice_qualifies (slices : list FrameSlice_t) (j : Z) :
  richestPanelCount slices < MINIMUM_PANELS_COUNT -> ~ qualifies slices j.
Proof.
  intros Hr (s & Hs & Hn). apply at_index_In in Hs.
  apply richestPanelCount_bound in Hs. lia.
Qed.

(** C8, as amended.  When the richest slice has exactly two panels and the
    slice at the middle index is one with exactly two panels, the selector
    binds RED to the higher and GREEN to the lower of the two panels of the
    middle slice, and YELLOW to the ignored sentinel. *)
Theorem initPlugin_two_panel_middle (layout : LayoutData) (palette : list RGB_t)
        (slices : list FrameSlice_t) (transTime : option Z) (middle : FrameSlice_t) :
  richestPanelCount slices = 2 ->
  at_index slices (middleFrameSliceIndex (Z.of_nat (length slices))) = Ok middle ->
  length (panelIds middle) = 2%nat ->
  NoDup (panelIds middle) ->
  (forall id, In id (panelIds middle) -> centroidY layout id <> None) ->
  exists gl top bottom,
    initPlugin layout palette slices transTime = Ok gl
    /\ colorPanelIds gl = [top; IGNORED_PANEL_ID; bottom]
    /\ Permutation [top; bottom] (panelIds middle)
    /\ not_below layout top bottom.
Proof.
  intros Hr Hm Hlen Hnd Hall.
  assert (Hidx : middlestFrameSliceIndex slices
                 = middleFrameSliceIndex (Z.of_nat (length slices))).
  { apply middlestFrameSliceIndex_fallback. intros j [Hq _].
    revert Hq. apply no_slice_qualifies. rewrite Hr. reflexivity. }
  rewrite <- Hidx in Hm.
  destruct (initPlugin_result layout palette slices transTime middle Hm Hnd Hall)
    as (sorted & _ & P & S & ->).
  rewrite bindColorPanelIds_cases.
  pose proof (Permutation_length P) as L. rewrite Hlen in L.
  destruct sorted as [| top [| bottom [| x rest]]]; try discriminate L.
  cbn [bind]. eexists _, top, bottom. repeat split; [assumption |].
  inversion S as [| ? ? _ F]; subst. inversion F; subst. assumption.
Qed.

(** C8, as amended, on [pair_in_the_middle]. *)
Lemma initPlugin_two_panel_middle_witness :
  exists gl top bottom,
    initPlugin five_panels [] pair_in_the_middle None = Ok gl
    /\ colorPanelIds gl = [top; IGNORED_PANEL_ID; bottom]
    /\ Permutation [top; bottom] [3; 2]
    /\ not_below five_panels top bottom.
Proof.
  apply (initPlugin_two_panel_middle five_panels [] pair_in_the_middle None
                                     (mkSlice [3; 2])).
  - reflexivity.
  - reflexivity.
  - reflexivity.
  - distinct_panels.
  - known_panels.
Defined.

(** C8, counterexample.  The richest slice, on the left, has two panels, but
    the slice at the middle index has one: the selector falls back to the
    middle slice and binds all three slots, YELLOW too, to its single panel. *)
Lemma initPlugin_two_panels_off_middle :
  richestPanelCount pair_on_the_left = 2
  /\ middlestFrameSliceIndex pair_on_the_left = 1
  /\ (exists gl, initPlugin five_panels [] pair_on_the_left None = Ok gl
                 /\ colorPanelIds gl = [3; 3; 3])
  /\ ~ spec_two_panel_binding five_panels [] pair_on_the_left None.
Proof.
  split; [reflexivity |]. split; [reflexivity |].
  split; [eexists; split; vm_compute; reflexivity |].
  intros H. destruct H as (gl & top & bottom & s & Hg & Hids & _); [reflexivity |].
  vm_compute in Hg. injection Hg as <-. discriminate Hids.
Qed.

(** C10.  After the selector has run on a chosen slice that is not empty,
    with distinct identifiers known to the layout, the RED and the GREEN slot
    hold identifiers of panels of the chosen slice; the YELLOW slot holds one
    too, or else the ignored sentinel, and it holds the sentinel only when
    the slice has two panels.  Hence, the sentinel not being the identifier
    of a panel of the slice, neither RED nor GREEN holds it. *)
Theorem initPlugin_red_green_real (layout : LayoutData) (palette : list RGB_t)
        (slices : list FrameSlice_t) (transTime : option Z) (chosen : FrameSlice_t) :
  at_index slices (middlestFrameSliceIndex slices) = Ok chosen ->
  panelIds chosen <> [] ->
  NoDup (panelIds chosen) ->
  (forall id, In id (panelIds chosen) -> centroidY layout id <> None) ->
  exists gl red yellow green,
    initPlugin layout palette slices transTime = Ok gl
    /\ colorPanelIds gl = [red; yellow; green]
    /\ In red (panelIds chosen)
    /\ In green (panelIds chosen)
    /\ (In yellow (panelIds chosen)
        \/ (yellow = IGNORED_PANEL_ID /\ length (panelIds chosen) = 2%nat))
    /\ (~ In IGNORED_PANEL_ID (panelIds chosen) ->
        red <> IGNORED_PANEL_ID /\ green <> IGNORED_PANEL_ID
        /\ (yellow = IGNORED_PANEL_ID -> length (panelIds chosen) = 2%nat)).
Proof.
  intros Hc Hne Hnd Hall.
  destruct (initPlugin_result layout palette slices transTime chosen Hc Hnd Hall)
    as (sorted & _ & P & _ & ->).
  rewrite bindColorPanelIds_cases.
  assert (Hin : forall id, In id sorted -> In id (panelIds chosen)).
  { intros id. apply Permutation_in. assumption. }
  assert (Hreal : forall id, In id sorted -> ~ In IGNORED_PANEL_ID (panelIds chosen) ->
                             id <> IGNORED_PANEL_ID).
  { intros id Hid Hno ->. apply Hno, Hin, Hid. }
  pose proof (Permutation_length P) as L.
  destruct sorted as [| p0 [| p1 [| p2 rest]]]; cbn [bind].
  - apply Permutation_nil in P. congruence.
  - exists (mkGlobals layout palette slices
                      (match transTime with Some t => t | None => 50 end)
                      (firstn 3 palette ++ skipn (length (firstn 3 palette)) defaultColors)
                      [p0; p0; p0] RED), p0, p0, p0.
    repeat split; try (apply Hin; cbn; auto); try (left; apply Hin; cbn; auto);
      try (apply Hreal; cbn; auto).
    intros E. exfalso. revert E. apply Hreal; cbn; auto.
  - eexists _, p0, IGNORED_PANEL_ID, p1.
    repeat split; try (apply Hin; cbn; auto); try (apply Hreal; cbn; auto).
    + right. split; [reflexivity | symmetry; exact L].
    + symmetry. exact L.
  - eexists _, p0, p1, p2.
    repeat split; try (apply Hin; cbn; auto); try (left; apply Hin; cbn; auto);
      try (apply Hreal; cbn; auto).
    intros E. exfalso. revert E. apply Hreal; cbn; auto.
Qed.

(** C10 on [pair_in_the_middle], whose chosen slice has two panels. *)
Lemma initPlugin_red_green_real_witness :
  exists gl red yellow green,
    initPlugin five_panels [] pair_in_the_middle None = Ok gl
    /\ colorPanelIds gl = [red; yellow; green]
    /\ In red [3; 2]
    /\ In green [3; 2]
    /\ (In yellow [3; 2] \/ (yellow = IGNORED_PANEL_ID /\ length [3; 2] = 2%nat))
    /\ (~ In IGNORED_PANEL_ID [3; 2] ->
        red <> IGNORED_PANEL_ID /\ green <> IGNORED_PANEL_ID
        /\ (yellow = IGNORED_PANEL_ID -> length [3; 2] = 2%nat)).
Proof.
  apply (initPlugin_red_green_real five_panels [] pair_in_the_middle None
                                   (mkSlice [3; 2])).
  - reflexivity.
  - discriminate.
  - distinct_panels.
  - known_panels.
Defined.

(** ** Binary64 arithmetic *)

Lemma digits2_pos_size (p : positive) : digits2_pos p = Pos.size p.
Proof. induction p; cbn; congruence. Qed.

Lemma Zdigits2_log2 (p : positive) : Zdigits2 (Zpos p) = Z.log2 (Zpos p) + 1.
Proof.
  cbn [Zdigits2]. rewrite digits2_pos_size.
  destruct p; cbn [Pos.size Z.log2]; lia.
Qed.

Lemma Zdigits2_unique (p : positive) (D : Z) :
  2 ^ (D - 1) <= Zpos p < 2 ^ D -> Zdigits2 (Zpos p) = D.
Proof.
  intros H. rewrite Zdigits2_log2.
  assert (0 <= D - 1).
  { destruct (Z.leb_spec 0 (D - 1)); [assumption |].
    destruct (Z.eq_dec D 0) as [-> | ?]; [cbn in H; lia |].
    rewrite (Z.pow_neg_r 2 D) in H by lia. lia. }
  assert (L : Z.log2 (Zpos p) = D - 1).
  { apply Z.log2_unique; [assumption |].
    replace (Z.succ (D - 1)) with D by lia. assumption. }
  lia.
Qed.

Lemma Zdigits2_bounds (p : positive) :
  2 ^ (Zdigits2 (Zpos p) - 1) <= Zpos p < 2 ^ Zdigits2 (Zpos p).
Proof.
  rewrite Zdigits2_log2. replace (Z.log2 (Zpos p) + 1 - 1) with (Z.log2 (Zpos p)) by lia.
  replace (Z.log2 (Zpos p) + 1) with (Z.succ (Z.log2 (Zpos p))) by lia.
  apply Z.log2_spec. lia.
Qed.

Lemma iter_pos_nat {A : Type} (f : A -> A) (p : positive) (x : A) :
  iter_pos f p x = Nat.iter (Pos.to_nat p) f x.
Proof.
  revert x. induction p as [p IH | p IH |]; intros x; cbn [iter_pos].
  - rewrite !IH, Pos2Nat.inj_xI, Nat.iter_succ_r.
    replace (2 * Pos.to_nat p)%nat with (Pos.to_nat p + Pos.to_nat p)%nat by lia.
    rewrite Nat.iter_add. reflexivity.
  - rewrite !IH, Pos2Nat.inj_xO.
    replace (2 * Pos.to_nat p)%nat with (Pos.to_nat p + Pos.to_nat p)%nat by lia.
    rewrite Nat.iter_add. reflexivity.
  - reflexivity.
Qed.

(** One step of the shift on a mantissa that is not negative. *)
Lemma shr_1_nonneg (m : Z) (rb sb : bool) :
  0 <= m ->
  shr_1 (Build_shr_record m rb sb)
  = Build_shr_record (m / 2) (Z.odd m) (rb || sb).
Proof.
  intros H. rewrite <- Z.div2_div.
  destruct m as [| [p | p |] |]; try reflexivity. lia.
Qed.

(** [j + 1] steps of the shift: the mantissa is divided by [2^(j+1)] and the
    round bit is the last bit that left. *)
Lemma shr_1_iter (m : Z) :
  0 <= m ->
  forall j rb sb,
  exists sb',
    Nat.iter (S j) shr_1 (Build_shr_record m rb sb)
    = Build_shr_record (m / 2 ^ Z.of_nat (S j)) (Z.odd (m / 2 ^ Z.of_nat j)) sb'.
Proof.
  intros Hm. induction j as [| j IH]; intros rb sb.
  - cbn [Nat.iter]. rewrite shr_1_nonneg by assumption.
    eexists. f_equal. change (2 ^ Z.of_nat 0) with 1. rewrite Z.div_1_r. reflexivity.
  - destruct (IH rb sb) as [sb' E].
    change (Nat.iter (S (S j)) shr_1 ?x) with (shr_1 (Nat.iter (S j) shr_1 x)).
    rewrite E, shr_1_nonneg by (apply Z.div_pos; lia).
    eexists. f_equal.
    rewrite Z.div_div by lia. f_equal.
    rewrite (Nat2Z.inj_succ (S j)), Z.pow_succ_r by lia. lia.
Qed.

Lemma round_nearest_even_cases (m : Z) (rb sb : bool) :
  let m1 := round_nearest_even m (loc_of_shr_record (Build_shr_record m rb sb)) in
  (m1 = m \/ m1 = m + 1) /\ (rb = false -> m1 = m).
Proof.
  destruct rb, sb; cbn; try destruct (Z.even m); auto; split; auto; discriminate.
Qed.

Lemma emin_binary64 : emin prec emax = -1074.
Proof. reflexivity. Qed.

(** The exponent of a number that is not subnormal. *)
Lemma fexp_normal (x : Z) : -1074 <= x - prec -> fexp prec emax x = x - prec.
Proof.
  intros H. unfold fexp. rewrite emin_binary64.
  change IntDef.Z.max with Z.max. change IntDef.Z.sub with Z.sub. lia.
Qed.

(** When less than half of [2^n] is cut off, the last bit that leaves is 0. *)
Lemma half_cut_even (M n : Z) :
  0 < n -> M mod 2 ^ n < 2 ^ (n - 1) -> Z.odd (M / 2 ^ (n - 1)) = false.
Proof.
  intros Hn Hrem.
  assert (P : 0 < 2 ^ (n - 1)) by (apply Z.pow_pos_nonneg; lia).
  assert (E2 : 2 ^ n = 2 * 2 ^ (n - 1)).
  { rewrite <- Z.pow_succ_r by lia. f_equal. lia. }
  assert (Hm : 0 <= M mod 2 ^ n) by (apply Z.mod_pos_bound; lia).
  assert (E : M = 2 ^ n * (M / 2 ^ n) + M mod 2 ^ n) by (apply Z.div_mod; lia).
  assert (Q : M / 2 ^ (n - 1) = 2 * (M / 2 ^ n)).
  { symmetry. apply (Z.div_unique_pos _ _ _ (M mod 2 ^ n)); [lia |].
    rewrite E at 1. rewrite E2. ring. }
  rewrite Q, Z.odd_mul. reflexivity.
Qed.

(** A shift by [n] places of an exact mantissa. *)
Lemma shr_exact (M e n : Z) :
  0 <= M -> 0 < n ->
  exists sb,
    shr (shr_record_of_loc M loc_Exact) e n
    = (Build_shr_record (M / 2 ^ n) (Z.odd (M / 2 ^ (n - 1))) sb, e + n).
Proof.
  intros HM Hn. destruct n as [| pn |]; try lia.
  unfold shr. rewrite iter_pos_nat.
  destruct (Pos2Nat.is_succ pn) as [j Ej]. rewrite Ej.
  assert (Hj : Z.of_nat (S j) = Zpos pn) by (rewrite <- Ej; apply positive_nat_Z).
  destruct (shr_1_iter M HM j false false) as [sb E].
  exists sb. cbn [shr_record_of_loc]. rewrite E, Hj.
  replace (Z.of_nat j) with (Zpos pn - 1) by lia. reflexivity.
Qed.

(** Rounding a mantissa of more than 53 bits, away from the subnormal and the
    overflow range: the mantissa is shifted by the excess [n] and rounded,
    upward by one at most and not at all when less than half a unit is cut
    off; a carry into a 54th bit is shifted out again. *)
Lemma binary_round_aux_wide (sx : bool) (m : positive) (e D : Z) :
  Zdigits2 (Zpos m) = D ->
  prec < D ->
  -1074 <= D + e - prec ->
  D + e - prec + 1 <= emax - prec ->
  exists m1 m2 e2,
    binary_round_aux prec emax sx (Zpos m) e loc_Exact = S754_finite sx m2 e2
    /\ (m1 = Zpos m / 2 ^ (D - prec) \/ m1 = Zpos m / 2 ^ (D - prec) + 1)
    /\ (Zpos m mod 2 ^ (D - prec) < 2 ^ (D - prec - 1) -> m1 = Zpos m / 2 ^ (D - prec))
    /\ ((Zpos m2 = m1 /\ e2 = e + (D - prec))
        \/ (2 * Zpos m2 = m1 /\ e2 = e + (D - prec) + 1)).
Proof.
  intros HD Hwide Hmin Hmax.
  pose proof (Zdigits2_bounds m) as HB. rewrite HD in HB.
  set (M := Zpos m) in *. set (n := D - prec) in *.
  assert (Hn : 0 < n) by (subst n; lia).
  (* the first shift *)
  assert (S1 : exists sb,
             shr_fexp prec emax M e loc_Exact
             = (Build_shr_record (M / 2 ^ n) (Z.odd (M / 2 ^ (n - 1))) sb, e + n)).
  { unfold shr_fexp. rewrite HD, fexp_normal by assumption.
    replace (D + e - prec - e) with n by (subst n; lia).
    apply shr_exact; [subst M; lia | assumption]. }
  destruct S1 as [sb S1].
  unfold binary_round_aux. rewrite S1. cbn [shr_m].
  destruct (round_nearest_even_cases (M / 2 ^ n) (Z.odd (M / 2 ^ (n - 1))) sb)
    as [Hm1 Hdown].
  set (m1 := round_nearest_even (M / 2 ^ n) _) in *.
  (* the size of the shifted mantissa *)
  assert (Hq : 2 ^ (prec - 1) <= M / 2 ^ n < 2 ^ prec).
  { split.
    - apply Z.div_le_lower_bound; [apply Z.pow_pos_nonneg; lia |].
      rewrite <- Z.pow_add_r by (unfold prec; lia).
      replace (n + (prec - 1)) with (D - 1) by (subst n; lia). apply HB.
    - apply Z.div_lt_upper_bound; [apply Z.pow_pos_nonneg; lia |].
      rewrite <- Z.pow_add_r by (unfold prec; lia).
      replace (n + prec) with D by (subst n; lia). apply HB. }
  assert (P52 : 0 < 2 ^ (prec - 1)) by (apply Z.pow_pos_nonneg; unfold prec; lia).
  assert (P53 : 2 ^ prec = 2 * 2 ^ (prec - 1)).
  { reflexivity. }
  exists m1.
  destruct (Z.ltb_spec m1 (2 ^ prec)) as [Hlt | Hge].
  - (* no carry *)
    destruct m1 as [| p1 |] eqn:E1; try lia.
    exists p1, (e + n).
    assert (Hd : Zdigits2 (Zpos p1) = prec).
    { apply Zdigits2_unique. lia. }
    unfold shr_fexp, shr. rewrite Hd.
    rewrite fexp_normal by (subst n; lia).
    replace (prec + (e + n) - prec - (e + n)) with 0 by lia.
    cbn [shr_record_of_loc shr_m].
    destruct (Z.leb_spec (e + n) (emax - prec)) as [_ | Hbad]; [| subst n; lia].
    repeat split; auto.
    intros Hrem. apply Hdown. apply half_cut_even; assumption.
  - (* a carry: the rounded mantissa is [2^53] *)
    assert (Em : m1 = 2 ^ prec) by lia.
    exists (4503599627370496%positive), (e + n + 1).
    assert (Hd : Zdigits2 m1 = prec + 1).
    { rewrite Em. reflexivity. }
    unfold shr_fexp. rewrite Hd, fexp_normal by (subst n; lia).
    replace (prec + 1 + (e + n) - prec - (e + n)) with 1 by lia.
    destruct (shr_exact m1 (e + n) 1 ltac:(lia) ltac:(lia)) as [sb' ->].
    cbn [shr_m].
    replace (m1 / 2 ^ 1) with (Zpos 4503599627370496) by (rewrite Em; reflexivity).
    destruct (Z.leb_spec (e + n + 1) (emax - prec)) as [_ | Hbad]; [| subst n; lia].
    repeat split; auto.
    intros Hrem. apply Hdown. apply half_cut_even; assumption.
Qed.

(** A mantissa of exactly 53 bits is kept as it is. *)
Lemma binary_round_aux_exact (sx : bool) (m : positive) (e : Z) :
  Zdigits2 (Zpos m) = prec ->
  -1074 <= e <= emax - prec ->
  binary_round_aux prec emax sx (Zpos m) e loc_Exact = S754_finite sx m e.
Proof.
  intros Hd He. unfold binary_round_aux, shr_fexp.
  rewrite Hd, fexp_normal by lia.
  replace (prec + e - prec - e) with 0 by lia.
  cbn [shr shr_record_of_loc shr_m loc_of_shr_record round_nearest_even].
  rewrite Hd, fexp_normal by lia.
  replace (prec + e - prec - e) with 0 by lia.
  cbn [shr shr_record_of_loc shr_m].
  destruct (Z.leb_spec e (emax - prec)); [reflexivity | lia].
Qed.

Lemma Pos_iter_xO (p k : positive) :
  Zpos (Pos.iter xO p k) = Zpos p * 2 ^ Zpos k.
Proof.
  induction k as [| k IH] using Pos.peano_ind.
  - cbn [Pos.iter]. lia.
  - rewrite Pos.iter_succ, Pos2Z.inj_xO, IH, Pos2Z.inj_succ, Z.pow_succ_r by lia.
    ring.
Qed.

(** The double of a positive [int]: its bits, moved up to fill the 53 bits of
    the mantissa. *)
Lemma binary_round_int (sx : bool) (p : positive) :
  Zpos p <= 2 ^ 31 ->
  exists mz,
    binary_round prec emax sx p 0 = S754_finite sx mz (Zdigits2 (Zpos p) - prec)
    /\ Zpos mz = Zpos p * 2 ^ (prec - Zdigits2 (Zpos p))
    /\ Zdigits2 (Zpos mz) = prec.
Proof.
  intros Hp.
  pose proof (Zdigits2_bounds p) as HB.
  set (d := Zdigits2 (Zpos p)) in *.
  assert (Hd : 1 <= d <= 32).
  { split.
    - subst d. cbn [Zdigits2]. lia.
    - destruct (Z.leb_spec d 32); [assumption |].
      assert (2 ^ 32 <= 2 ^ (d - 1)) by (apply Z.pow_le_mono_r; lia). lia. }
  unfold binary_round. change (Zpos (digits2_pos p)) with d.
  change (IntDef.Z.add d 0) with (d + 0). rewrite Z.add_0_r.
  rewrite fexp_normal by (unfold prec; lia).
  unfold shl_align. change (IntDef.Z.sub (d - prec) 0) with (d - prec - 0).
  replace (d - prec - 0) with (Zneg (Z.to_pos (prec - d))) by (unfold prec in *; lia).
  set (mz := Pos.iter xO p (Z.to_pos (prec - d))).
  assert (Emz : Zpos mz = Zpos p * 2 ^ (prec - d)).
  { subst mz. rewrite Pos_iter_xO, Z2Pos.id by (unfold prec; lia). reflexivity. }
  assert (Dmz : Zdigits2 (Zpos mz) = prec).
  { apply Zdigits2_unique. rewrite Emz.
    assert (A : 0 < 2 ^ (prec - d)) by (apply Z.pow_pos_nonneg; unfold prec; lia).
    replace (2 ^ (prec - 1)) with (2 ^ (d - 1) * 2 ^ (prec - d)).
    2:{ rewrite <- Z.pow_add_r by (unfold prec; lia). f_equal. lia. }
    replace (2 ^ prec) with (2 ^ d * 2 ^ (prec - d)).
    2:{ rewrite <- Z.pow_add_r by (unfold prec; lia). f_equal. lia. }
    split; [apply Z.mul_le_mono_nonneg_r | apply Z.mul_lt_mono_pos_r]; lia. }
  exists mz. split; [| split; assumption].
  apply binary_round_aux_exact; [assumption | unfold prec, emax; lia].
Qed.

Lemma int_digits (p : positive) :
  Zpos p <= 2 ^ 31 -> 1 <= Zdigits2 (Zpos p) <= 32.
Proof.
  intros Hp. pose proof (Zdigits2_bounds p) as HB. split.
  - cbn [Zdigits2]. lia.
  - destruct (Z.leb_spec (Zdigits2 (Zpos p)) 32); [assumption |].
    assert (2 ^ 32 <= 2 ^ (Zdigits2 (Zpos p) - 1)) by (apply Z.pow_le_mono_r; lia).
    lia.
Qed.

(** The product of an [int] and the double [0.4], cut to an integer, is two
    fifths of the [int], cut to an integer: the error of the literal and the
    error of the rounding together stay below the distance of 2/5 of an
    integer from the next integer. *)
Lemma product_0_4_truncated (sx : bool) (p : positive) :
  Zpos p <= 2 ^ 31 ->
  exists m2 e2,
    SFmul prec emax (binary_round prec emax sx p 0) double_0_4
    = S754_finite sx m2 e2
    /\ e2 <= 0
    /\ Zpos m2 / 2 ^ (- e2) = (2 * Zpos p) / 5.
Proof.
  intros Hp.
  destruct (binary_round_int sx p Hp) as (mz & -> & Emz & Dmz).
  pose proof (int_digits p Hp) as Hd.
  pose proof (Zdigits2_bounds p) as HT.
  pose proof (Zdigits2_bounds mz) as Hmz. rewrite Dmz in Hmz.
  set (T := Zpos p) in *. set (d := Zdigits2 T) in *.
  set (m04 := 7205759403792794%positive).
  unfold double_0_4. cbn [SFmul]. rewrite xorb_false_r.
  change (PosDef.Pos.mul mz 7205759403792794) with (mz * m04)%positive.
  change (IntDef.Z.add (d - prec) (-54)) with (d - prec + -54).
  pose proof (Zdigits2_bounds (mz * m04)) as HM.
  set (D := Zdigits2 (Zpos (mz * m04))) in *.
  assert (EM : Zpos (mz * m04) = T * 2 ^ (prec - d) * Zpos m04).
  { rewrite Pos2Z.inj_mul, Emz. reflexivity. }
  set (M := Zpos (mz * m04)) in *.
  set (A := 2 ^ (prec - d)) in *.
  assert (HA : 2 ^ 21 <= A).
  { subst A. apply Z.pow_le_mono_r; unfold prec; lia. }
  assert (HMr : 2 ^ 104 <= M < 2 ^ 106).
  { rewrite EM, <- Emz. change (2 ^ (prec - 1)) with (2 ^ 52) in Hmz.
    change (2 ^ prec) with (2 ^ 53) in Hmz.
    assert (2 ^ 52 <= Zpos m04 < 2 ^ 53) by (subst m04; split; [discriminate | reflexivity]).
    split.
    - change (2 ^ 104) with (2 ^ 52 * 2 ^ 52). apply Z.mul_le_mono_nonneg; lia.
    - change (2 ^ 106) with (2 ^ 53 * 2 ^ 53). apply Z.mul_lt_mono_nonneg; lia. }
  assert (HD : 105 <= D <= 106).
  { split.
    - destruct (Z.leb_spec 105 D); [assumption |].
      assert (2 ^ D <= 2 ^ 104) by (apply Z.pow_le_mono_r; lia). lia.
    - destruct (Z.leb_spec D 106); [assumption |].
      assert (2 ^ 106 <= 2 ^ (D - 1)) by (apply Z.pow_le_mono_r; lia). lia. }
  destruct (binary_round_aux_wide sx (mz * m04) (d - prec + -54) D)
    as (m1 & m2 & e2 & Hres & Hm1 & Hdown & Hcarry);
    try (unfold prec, emax; lia); [reflexivity |].
  fold M in Hm1, Hdown.
  exists m2, e2. split; [exact Hres |].
  set (n := D - prec) in *.
  set (k := 160 - d - D).
  assert (Hn : 52 <= n <= 53) by (subst n; unfold prec; lia).
  assert (Hk : 22 <= k) by (subst k; lia).
  assert (HP : 0 < 2 ^ n) by (apply Z.pow_pos_nonneg; lia).
  assert (HK : 0 < 2 ^ k) by (apply Z.pow_pos_nonneg; lia).
  assert (HPK : 2 ^ n * 2 ^ k = 2 ^ 54 * A).
  { subst A. rewrite <- !Z.pow_add_r by (unfold prec; lia). f_equal.
    subst n k. unfold prec. lia. }
  assert (HPA : 2 ^ n <= 2 ^ 32 * A).
  { subst A. rewrite <- Z.pow_add_r by (unfold prec; lia).
    apply Z.pow_le_mono_r; unfold prec; lia. }
  assert (E5 : 5 * Zpos m04 = 2 ^ 55 + 2) by reflexivity.
  set (q := 2 * T / 5).
  assert (Eq : 2 * T = 5 * q + (2 * T) mod 5) by (apply Z.div_mod; lia).
  assert (Hrho : 0 <= (2 * T) mod 5 < 5) by (apply Z.mod_pos_bound; lia).
  set (rho := (2 * T) mod 5) in *.
  set (F := M / 2 ^ n) in *.
  (* the value before the rounding is at least [q] *)
  assert (Hlow : q * 2 ^ k <= F).
  { apply Z.div_le_lower_bound; [assumption |].
    replace (2 ^ n * (q * 2 ^ k)) with (q * 2 ^ 54 * A)
      by (rewrite <- Z.mul_assoc, <- HPK; ring).
    rewrite EM. replace (T * A * Zpos m04) with (T * Zpos m04 * A) by ring.
    apply Z.mul_le_mono_nonneg_r; lia. }
  (* the rounded value is below [q + 1] *)
  assert (Hup : m1 < (q + 1) * 2 ^ k).
  { destruct (Z.eq_dec rho 0) as [R0 | R0].
    - (* two fifths of the int are an integer: the rounding is downward *)
      assert (Etm : T * Zpos m04 = q * (2 ^ 54 + 1)) by lia.
      assert (EMq : M = 2 ^ n * (q * 2 ^ k) + q * A).
      { rewrite EM. replace (T * A * Zpos m04) with (T * Zpos m04 * A) by ring.
        rewrite Etm.
        replace (2 ^ n * (q * 2 ^ k)) with (q * (2 ^ n * 2 ^ k)) by ring.
        rewrite HPK. ring. }
      assert (HqA : 0 <= q * A < 2 ^ (n - 1)).
      { split; [apply Z.mul_nonneg_nonneg; lia |].
        apply (Z.mul_lt_mono_pos_r (2 ^ 54)); [lia |].
        replace (2 ^ (n - 1) * 2 ^ 54) with (2 ^ D).
        2:{ rewrite <- Z.pow_add_r by lia. f_equal. subst n. unfold prec. lia. }
        apply Z.le_lt_trans with M; [| apply HM].
        rewrite EMq.
        replace (2 ^ n * (q * 2 ^ k)) with (q * (2 ^ n * 2 ^ k)) by ring.
        rewrite HPK.
        assert (0 <= q * A) by (apply Z.mul_nonneg_nonneg; lia).
        replace (q * (2 ^ 54 * A)) with (q * A * 2 ^ 54) by ring. lia. }
      assert (Hhalf : 2 ^ (n - 1) < 2 ^ n) by (apply Z.pow_lt_mono_r; lia).
      assert (Hmod : M mod 2 ^ n = q * A).
      { symmetry. apply (Z.mod_unique_pos _ _ (q * 2 ^ k)); [lia | exact EMq]. }
      rewrite Hdown by (rewrite Hmod; lia).
      apply Z.div_lt_upper_bound; [assumption |].
      rewrite EMq.
      replace (2 ^ n * ((q + 1) * 2 ^ k)) with (2 ^ n * (q * 2 ^ k) + 2 ^ n * 2 ^ k)
        by ring.
      rewrite HPK. lia.
    - (* otherwise the next integer is at least a fifth away *)
      assert (F + 1 < (q + 1) * 2 ^ k); [| lia].
      assert (F < (q + 1) * 2 ^ k - 1); [| lia].
      apply Z.div_lt_upper_bound; [assumption |].
      replace (2 ^ n * ((q + 1) * 2 ^ k - 1))
        with ((q + 1) * (2 ^ n * 2 ^ k) - 2 ^ n) by ring.
      rewrite HPK, EM.
      replace (T * A * Zpos m04) with (T * Zpos m04 * A) by ring.
      assert (T * Zpos m04 * A + 2 ^ 32 * A < (q + 1) * (2 ^ 54 * A)); [| lia].
      replace (T * Zpos m04 * A + 2 ^ 32 * A) with ((T * Zpos m04 + 2 ^ 32) * A) by ring.
      replace ((q + 1) * (2 ^ 54 * A)) with ((q + 1) * 2 ^ 54 * A) by ring.
      apply Z.mul_lt_mono_pos_r; lia. }
  assert (Hm1F : F <= m1) by lia.
  assert (Hq : m1 / 2 ^ k = q).
  { symmetry. apply (Z.div_unique_pos _ _ _ (m1 - 2 ^ k * q)); lia. }
  destruct Hcarry as [[E1 E2] | [E1 E2]].
  - split; [subst k n; unfold prec in *; lia |].
    rewrite E1. replace (- e2) with k by (subst k n; unfold prec in *; lia).
    exact Hq.
  - split; [subst k n; unfold prec in *; lia |].
    replace (- e2) with (k - 1) by (subst k n; unfold prec in *; lia).
    rewrite <- Hq, <- E1.
    replace (2 ^ k) with (2 * 2 ^ (k - 1)).
    2:{ rewrite <- Z.pow_succ_r by lia. f_equal. lia. }
    rewrite Z.div_mul_cancel_l; [reflexivity | | lia].
    apply Z.pow_nonzero; lia.
Qed.

(** The sleep time of the yellow light on a transition time that is an
    [int]: two fifths of it, with the fraction dropped. *)
Lemma yellowSleepTime_int (t : Z) :
  INT_MIN <= t <= INT_MAX -> yellowSleepTime t = Ok (Z.quot (2 * t) 5).
Proof.
  intros Ht. unfold INT_MIN, INT_MAX in Ht.
  unfold yellowSleepTime, int_to_double, binary_normalize.
  destruct t as [| p | p].
  - reflexivity.
  - destruct (product_0_4_truncated false p ltac:(lia)) as (m2 & e2 & -> & He & Hq).
    unfold double_to_int. rewrite Z.shiftl_div_pow2, Hq by assumption.
    rewrite Z.quot_div_nonneg by lia.
    assert (0 <= 2 * Zpos p / 5 <= 2 ^ 31 - 1).
    { split; [apply Z.div_pos; lia |].
      apply Z.lt_le_pred, Z.div_lt_upper_bound; lia. }
    unfold INT_MIN, INT_MAX.
    destruct (Z.leb_spec (- 2 ^ 31) (2 * Zpos p / 5)); [| lia].
    destruct (Z.leb_spec (2 * Zpos p / 5) (2 ^ 31 - 1)); [reflexivity | lia].
  - destruct (product_0_4_truncated true p ltac:(lia)) as (m2 & e2 & -> & He & Hq).
    unfold double_to_int. rewrite Z.shiftl_div_pow2, Hq by assumption.
    replace (2 * Zneg p) with (- (2 * Zpos p)) by lia.
    rewrite Z.quot_opp_l, Z.quot_div_nonneg by lia.
    assert (0 <= 2 * Zpos p / 5 <= 2 ^ 31).
    { split; [apply Z.div_pos; lia |].
      apply Z.div_le_upper_bound; lia. }
    unfold INT_MIN, INT_MAX.
    destruct (Z.leb_spec (- 2 ^ 31) (- (2 * Zpos p / 5))); [| lia].
    destruct (Z.leb_spec (- (2 * Zpos p / 5)) (2 ^ 31 - 1)); [reflexivity | lia].
Qed.

(** ** Writing into a buffer *)

Lemma set_nth_length {A : Type} (v : list A) (n : nat) (a : A) :
  length (set_nth v n a) = length v.
Proof.
  revert n. induction v as [| x v IH]; intros [| n]; cbn; auto.
Qed.

Lemma set_nth_split {A : Type} (v : list A) (n : nat) (a : A) :
  (n < length v)%nat ->
  set_nth v n a = firstn n v ++ a :: skipn (S n) v.
Proof.
  revert n. induction v as [| x v IH]; intros [| n] H; cbn in *; try lia.
  - reflexivity.
  - f_equal. apply IH. lia.
Qed.

Lemma set_nth_app_l {A : Type} (v w : list A) (n : nat) (a : A) :
  (n < length v)%nat -> set_nth (v ++ w) n a = set_nth v n a ++ w.
Proof.
  revert n. induction v as [| x v IH]; intros [| n] H; cbn in *; try lia.
  - reflexivity.
  - f_equal. apply IH. lia.
Qed.

Lemma nth_error_set_nth {A : Type} (v : list A) (n k : nat) (a : A) :
  (n < length v)%nat ->
  nth_error (set_nth v n a) k = if Nat.eqb k n then Some a else nth_error v k.
Proof.
  revert n k. induction v as [| x v IH]; intros [| n] [| k] H; cbn in *;
    try lia; try reflexivity.
  apply IH. lia.
Qed.

Lemma store_Ok {A : Type} (v : list A) (i : Z) (a : A) :
  0 <= i < Z.of_nat (length v) ->
  store v i a = Ok (set_nth v (Z.to_nat i) a).
Proof.
  intros H. unfold store.
  destruct (Z.leb_spec 0 i); [| lia].
  destruct (Z.ltb_spec i (Z.of_nat (length v))); [| lia]. reflexivity.
Qed.

(** ** The scan of the panels *)

Lemma resetSlice_app (cids : list Z) (ids1 ids2 : list Z) :
  forall st,
    resetSlice cids (ids1 ++ ids2) st
    = (st' <- resetSlice cids ids1 st ;; resetSlice cids ids2 st').
Proof.
  induction ids1 as [| id ids1 IH]; intros st; [reflexivity |].
  cbn [app resetSlice].
  destruct (store (scan_frames st) (scan_index st) (mkFrame id 0 0 0 1));
    try reflexivity; cbn [bind].
  destruct (at_index cids RED); try reflexivity; cbn [bind].
  destruct (at_index cids YELLOW); try reflexivity; cbn [bind].
  destruct (at_index cids GREEN); try reflexivity; cbn [bind].
  apply IH.
Qed.

(** The two nested loops visit the panels in the order of [allPanelIds]. *)
Lemma resetPanels_flat (cids : list Z) (slices : list FrameSlice_t) :
  forall st,
    resetPanels cids slices st = resetSlice cids (allPanelIds slices) st.
Proof.
  unfold allPanelIds.
  induction slices as [| s slices IH]; intros st; [reflexivity |].
  cbn [resetPanels map concat]. rewrite resetSlice_app.
  destruct (resetSlice cids (panelIds s) st); try reflexivity.
  cbn [bind]. apply IH.
Qed.

(** One pass over [ids] from position [n] of a buffer that is long enough:
    the entries of the pass are black, the others are untouched, and each
    recorded position is the last one of its identifier. *)
Lemma resetSlice_result (red yellow green : Z) :
  forall ids frames n ri yi gi,
    (n + length ids <= length frames)%nat ->
    resetSlice [red; yellow; green] ids (mkScan frames (Z.of_nat n) ri yi gi)
    = Ok (mkScan (firstn n frames ++ map blackFrame ids
                         ++ skipn (n + length ids) frames)
                 (Z.of_nat (n + length ids))
                 (lastIndexOf red ids (Z.of_nat n) ri)
                 (if yellow =? IGNORED_PANEL_ID then yi
                  else lastIndexOf yellow ids (Z.of_nat n) yi)
                 (lastIndexOf green ids (Z.of_nat n) gi)).
Proof.
  induction ids as [| id ids IH]; intros frames n ri yi gi Hlen.
  - cbn [resetSlice length map app lastIndexOf].
    rewrite Nat.add_0_r, firstn_skipn.
    destruct (yellow =? IGNORED_PANEL_ID); reflexivity.
  - cbn [length] in Hlen.
    cbn [resetSlice scan_frames scan_index redPanelAbsoluteFrameIndex
         yellowPanelAbsoluteFrameIndex greenPanelAbsoluteFrameIndex].
    rewrite store_Ok by lia. rewrite Nat2Z.id.
    change (at_index [red; yellow; green] RED) with (Ok red).
    change (at_index [red; yellow; green] YELLOW) with (Ok yellow).
    change (at_index [red; yellow; green] GREEN) with (Ok green).
    cbn [bind].
    replace (Z.of_nat n + 1) with (Z.of_nat (S n)) by lia.
    rewrite IH by (rewrite set_nth_length; lia).
    cbn [length map lastIndexOf].
    replace (Z.of_nat n + 1) with (Z.of_nat (S n)) by lia.
    do 2 f_equal.
    + rewrite set_nth_split by lia.
      rewrite firstn_app, firstn_firstn, length_firstn.
      replace (Nat.min (S n) n) with n by lia.
      replace (Nat.min n (length frames)) with n by lia.
      replace (S n - n)%nat with 1%nat by lia.
      cbn [firstn]. rewrite <- app_assoc. cbn [app]. do 3 f_equal.
      rewrite skipn_app, length_firstn.
      replace (Nat.min n (length frames)) with n by lia.
      rewrite (skipn_all2 (firstn n frames))
        by (rewrite length_firstn; lia).
      replace (S n + length ids - n)%nat with (S (length ids)) by lia.
      cbn [app]. rewrite skipn_cons, skipn_skipn. f_equal. lia.
    + f_equal. lia.
    + destruct (Z.eqb_spec yellow IGNORED_PANEL_ID) as [-> | Hy].
      * rewrite andb_false_r. reflexivity.
      * rewrite andb_true_r. reflexivity.
Qed.

Lemma lastIndexOf_cases (id : Z) :
  forall ids n found,
    let p := lastIndexOf id ids (Z.of_nat n) found in
    (~ In id ids /\ p = found)
    \/ (In id ids /\ Z.of_nat n <= p < Z.of_nat (n + length ids)
        /\ nth_error ids (Z.to_nat p - n) = Some id).
Proof.
  induction ids as [| x ids IH]; intros n found; cbn zeta.
  - left. split; [intros [] | reflexivity].
  - cbn [lastIndexOf length].
    replace (Z.of_nat n + 1) with (Z.of_nat (S n)) by lia.
    destruct (IH (S n) (if x =? id then Z.of_nat n else found))
      as [[Hno Hp] | (Hin & Hr & Hn)].
    + rewrite Hp. destruct (Z.eqb_spec x id) as [-> | Hx].
      * right. split; [left; reflexivity |]. split; [lia |].
        rewrite Nat2Z.id, Nat.sub_diag. reflexivity.
      * left. split; [| reflexivity]. intros [E | E]; [congruence | auto].
    + set (p := lastIndexOf id ids (Z.of_nat (S n))
                            (if x =? id then Z.of_nat n else found)) in *.
      right. split; [right; assumption |]. split; [lia |].
      replace (Z.to_nat p - n)%nat with (S (Z.to_nat p - S n)) by lia.
      exact Hn.
Qed.

(** The recorded position of a panel of the slices is a position of that
    panel. *)
Lemma lastIndexOf_found (id : Z) (ids : list Z) :
  In id ids ->
  0 <= lastIndexOf id ids 0 0 < Z.of_nat (length ids)
  /\ nth_error ids (Z.to_nat (lastIndexOf id ids 0 0)) = Some id.
Proof.
  intros Hin. destruct (lastIndexOf_cases id ids 0 0) as [[Hno _] | (_ & Hr & Hn)].
  - contradiction.
  - cbn [Z.of_nat Nat.add] in Hr. rewrite Nat.sub_0_r in Hn. auto.
Qed.

(** Painting the recorded position after the scan. *)
Lemma paint_scanned (ids : list Z) (tail : list Frame_t) (id : Z) (color : RGB_t) :
  In id ids ->
  paint (map blackFrame ids ++ tail) (lastIndexOf id ids 0 0) color
  = Ok (set_nth (map blackFrame ids) (Z.to_nat (lastIndexOf id ids 0 0))
                (colorFrame id color) ++ tail).
Proof.
  intros Hin. destruct (lastIndexOf_found id ids Hin) as [Hr Hn].
  set (p := lastIndexOf id ids 0 0) in *.
  unfold paint.
  assert (Hat : at_index (map blackFrame ids ++ tail) p = Ok (blackFrame id)).
  { apply at_index_Ok. split; [lia |].
    rewrite nth_error_app1 by (rewrite length_map; lia).
    rewrite nth_error_map, Hn. reflexivity. }
  rewrite Hat. cbn [bind]. rewrite store_Ok by (rewrite length_app, length_map; lia).
  rewrite set_nth_app_l by (rewrite length_map; lia). reflexivity.
Qed.

(** ** The next colour *)

Lemma nextColor_more_fuel (cids : list Z) (next : Z) :
  forall fuel fuel' cur,
    (fuel <= fuel')%nat ->
    nextColor fuel cids cur = Ok next -> nextColor fuel' cids cur = Ok next.
Proof.
  induction fuel as [| fuel IH]; intros fuel' cur Hle H; [discriminate |].
  destruct fuel' as [| fuel']; [lia |].
  cbn [nextColor] in *.
  destruct (at_index cids _) as [id | |]; try discriminate. cbn [bind] in *.
  destruct (id =? IGNORED_PANEL_ID); [| assumption].
  apply (IH fuel'); [lia | assumption].
Qed.

(** ** One call of the driver *)

(** The scan of the whole buffer. *)
Lemma resetPanels_result (red yellow green : Z) (slices : list FrameSlice_t)
      (frames : list Frame_t) :
  (length (allPanelIds slices) <= length frames)%nat ->
  resetPanels [red; yellow; green] slices (mkScan frames 0 0 0 0)
  = Ok (mkScan (map blackFrame (allPanelIds slices)
                    ++ skipn (length (allPanelIds slices)) frames)
               (Z.of_nat (length (allPanelIds slices)))
               (lastIndexOf red (allPanelIds slices) 0 0)
               (if yellow =? IGNORED_PANEL_ID then 0
                else lastIndexOf yellow (allPanelIds slices) 0 0)
               (lastIndexOf green (allPanelIds slices) 0 0)).
Proof.
  intros H. rewrite resetPanels_flat.
  apply (resetSlice_result red yellow green (allPanelIds slices) frames 0 0 0 0 H).
Qed.

Lemma nextColor_step (fuel : nat) (cids : list Z) (cur : Z) :
  nextColor (S fuel) cids cur
  = (id <- at_index cids (if 3 <=? cur + 1 then 0 else cur + 1) ;;
     if id =? IGNORED_PANEL_ID
     then nextColor fuel cids (if 3 <=? cur + 1 then 0 else cur + 1)
     else Ok (if 3 <=? cur + 1 then 0 else cur + 1)).
Proof. reflexivity. Qed.

Lemma nextColor_ready (red yellow green cur : Z) (fuel : nat) :
  red <> IGNORED_PANEL_ID -> green <> IGNORED_PANEL_ID ->
  0 <= cur < 3 -> (3 <= fuel)%nat ->
  nextColor fuel [red; yellow; green] cur
  = Ok (if cur =? RED then (if yellow =? IGNORED_PANEL_ID then GREEN else YELLOW)
        else if cur =? YELLOW then GREEN else RED).
Proof.
  intros Hr Hg Hc Hf.
  apply (nextColor_more_fuel _ _ 3 fuel cur Hf).
  apply Z.eqb_neq in Hr, Hg.
  assert (C : cur = 0 \/ cur = 1 \/ cur = 2) by lia.
  destruct C as [-> | [-> | ->]]; rewrite nextColor_step.
  - change (if 3 <=? 0 + 1 then 0 else 0 + 1) with 1.
    change (at_index [red; yellow; green] 1) with (Ok yellow). cbn [bind].
    change (0 =? RED) with true. cbv iota.
    destruct (yellow =? IGNORED_PANEL_ID); [| reflexivity].
    rewrite nextColor_step.
    change (if 3 <=? 1 + 1 then 0 else 1 + 1) with 2.
    change (at_index [red; yellow; green] 2) with (Ok green). cbn [bind].
    rewrite Hg. reflexivity.
  - change (if 3 <=? 1 + 1 then 0 else 1 + 1) with 2.
    change (at_index [red; yellow; green] 2) with (Ok green). cbn [bind].
    rewrite Hg. reflexivity.
  - change (if 3 <=? 2 + 1 then 0 else 2 + 1) with 0.
    change (at_index [red; yellow; green] 0) with (Ok red). cbn [bind].
    rewrite Hr. reflexivity.
Qed.

(** A call in a ready state, on a buffer with room for every panel: all
    entries of the panels are black but the last one of the panel of the
    current colour, which shows that colour; the rest of the buffer is as it
    was; the state after the call is ready again. *)
Lemma getPluginFrame_ready (gl : Globals) (frames : list Frame_t)
      (sleepTime : Z) (fuel : nat) :
  ready gl ->
  (length (allPanelIds (frameSlices gl)) <= length frames)%nat ->
  (3 <= fuel)%nat ->
  exists id color next,
    at_index (colorPanelIds gl) (currentColorIndex gl) = Ok id
    /\ at_index (colors gl) (currentColorIndex gl) = Ok color
    /\ In id (allPanelIds (frameSlices gl))
    /\ id <> IGNORED_PANEL_ID
    /\ nextColor 3 (colorPanelIds gl) (currentColorIndex gl) = Ok next
    /\ getPluginFrame fuel gl frames sleepTime
       = Ok (mkOutput
               (set_nth (map blackFrame (allPanelIds (frameSlices gl)))
                        (Z.to_nat (lastIndexOf id (allPanelIds (frameSlices gl)) 0 0))
                        (colorFrame id color)
                  ++ skipn (length (allPanelIds (frameSlices gl))) frames)
               (Z.of_nat (length (allPanelIds (frameSlices gl))))
               (sleepTimeOf gl)
               (setCurrentColorIndex gl next))
    /\ ready (setCurrentColorIndex gl next).
Proof.
  intros Hready Hfit Hfuel.
  destruct gl as [ld pal fs tt cols cids cur].
  unfold ready, sleepTimeOf, setCurrentColorIndex, getPluginFrame in *.
  cbn [layoutData paletteColors frameSlices transitionTime colors colorPanelIds
       currentColorIndex] in *.
  destruct Hready as ((red & yellow & green & -> & Hr & Hr' & Hg & Hg' & Hy)
                      & Hcols & (id & Hid & Hid') & Htt).
  destruct cols as [| c0 [| c1 [| c2 [| ? ?]]]]; try discriminate Hcols.
  pose proof (at_index_bounds _ _ _ Hid) as Hcur. cbn [length] in Hcur.
  pose proof (nextColor_ready red yellow green cur fuel Hr' Hg' ltac:(lia) Hfuel) as Hnext.
  pose proof (nextColor_ready red yellow green cur 3 Hr' Hg' ltac:(lia) (le_n 3)) as Hnext3.
  rewrite resetPanels_result, Hnext by assumption.
  cbn [bind]. unfold setCurrentColor.
  cbn [currentColorIndex colors transitionTime scan_frames scan_index
       redPanelAbsoluteFrameIndex yellowPanelAbsoluteFrameIndex
       greenPanelAbsoluteFrameIndex].
  assert (Hnready :
            forall next,
              next = (if cur =? RED
                      then if yellow =? IGNORED_PANEL_ID then GREEN else YELLOW
                      else if cur =? YELLOW then GREEN else RED) ->
              exists id', at_index [red; yellow; green] next = Ok id'
                          /\ id' <> IGNORED_PANEL_ID).
  { intros next ->.
    destruct (cur =? RED); [destruct (Z.eqb_spec yellow IGNORED_PANEL_ID) |
                            destruct (cur =? YELLOW)]; eexists; split;
      try reflexivity; assumption. }
  assert (C : cur = 0 \/ cur = 1 \/ cur = 2) by lia.
  destruct C as [-> | [-> | ->]]; injection Hid as <-.
  - (* red *)
    exists red, c0. eexists.
    change (0 =? RED) with true. cbn [at_index].
    change (at_index [c0; c1; c2] RED) with (Ok c0). cbn [bind].
    rewrite paint_scanned by assumption. cbn [bind fst snd].
    change (0 =? YELLOW) with false. cbv iota.
    repeat split; try assumption; try reflexivity; try exact Hnext3.
    + exists red, yellow, green. repeat split; assumption.
    + apply Hnready. reflexivity.
    + apply Htt.
    + apply Htt.
  - (* yellow *)
    exists yellow, c1. eexists.
    change (1 =? RED) with false. change (1 =? YELLOW) with true. cbv iota.
    change (at_index [c0; c1; c2] YELLOW) with (Ok c1). cbn [bind].
    destruct (Z.eqb_spec yellow IGNORED_PANEL_ID) as [E | _]; [contradiction |].
    destruct Hy as [E | Hy]; [contradiction |].
    rewrite paint_scanned by assumption. cbn [bind].
    rewrite yellowSleepTime_int by assumption. cbn [bind fst snd].
    repeat split; try assumption; try reflexivity; try exact Hnext3.
    + exists red, yellow, green. repeat split; auto.
    + apply Hnready. reflexivity.
    + apply Htt.
    + apply Htt.
  - (* green *)
    exists green, c2. eexists.
    change (2 =? RED) with false. change (2 =? YELLOW) with false.
    change (2 =? GREEN) with true. cbv iota.
    change (at_index [c0; c1; c2] GREEN) with (Ok c2). cbn [bind].
    rewrite paint_scanned by assumption. cbn [bind fst snd].
    repeat split; try assumption; try reflexivity; try exact Hnext3.
    + exists red, yellow, green. repeat split; assumption.
    + apply Hnready. reflexivity.
    + apply Htt.
    + apply Htt.
Qed.

(** The positions that the scan records in a ready state: the unguarded
    comparisons for RED and GREEN find the panels of these slots, and the
    guarded one for YELLOW finds the panel of the slot or, the slot being
    ignored, leaves the position at its initial 0. *)
Lemma resetPanels_positions (gl : Globals) (frames : list Frame_t) :
  ready gl ->
  (length (allPanelIds (frameSlices gl)) <= length frames)%nat ->
  exists st red yellow green,
    resetPanels (colorPanelIds gl) (frameSlices gl) (mkScan frames 0 0 0 0) = Ok st
    /\ colorPanelIds gl = [red; yellow; green]
    /\ nth_error (allPanelIds (frameSlices gl))
                 (Z.to_nat (redPanelAbsoluteFrameIndex st)) = Some red
    /\ nth_error (allPanelIds (frameSlices gl))
                 (Z.to_nat (greenPanelAbsoluteFrameIndex st)) = Some green
    /\ (yellow <> IGNORED_PANEL_ID ->
        nth_error (allPanelIds (frameSlices gl))
                  (Z.to_nat (yellowPanelAbsoluteFrameIndex st)) = Some yellow)
    /\ (yellow = IGNORED_PANEL_ID -> yellowPanelAbsoluteFrameIndex st = 0).
Proof.
  intros ((red & yellow & green & Hids & Hr & _ & Hg & _ & Hy) & _) Hfit.
  rewrite Hids, resetPanels_result by assumption.
  eexists _, red, yellow, green. split; [reflexivity |].
  cbn [redPanelAbsoluteFrameIndex yellowPanelAbsoluteFrameIndex
       greenPanelAbsoluteFrameIndex].
  split; [reflexivity |].
  split; [apply lastIndexOf_found; assumption |].
  split; [apply lastIndexOf_found; assumption |].
  destruct (Z.eqb_spec yellow IGNORED_PANEL_ID) as [E | E]; split; intros H;
    try contradiction; try reflexivity.
  destruct Hy as [Hy | Hy]; [contradiction |].
  apply lastIndexOf_found. assumption.
Qed.

(** ** The states of a run *)

Lemma nextColor_Ok (cids : list Z) (next : Z) :
  forall fuel cur,
    nextColor fuel cids cur = Ok next ->
    exists id, at_index cids next = Ok id /\ id <> IGNORED_PANEL_ID.
Proof.
  induction fuel as [| fuel IH]; intros cur H; [discriminate |].
  rewrite nextColor_step in H.
  destruct (at_index cids (if 3 <=? cur + 1 then 0 else cur + 1)) as [id | |] eqn:E;
    try discriminate.
  cbn [bind] in H.
  destruct (Z.eqb_spec id IGNORED_PANEL_ID) as [_ | Hid].
  - eapply IH. eassumption.
  - injection H as <-. exists id. auto.
Qed.

Lemma getPluginFrame_Ok (fuel : nat) (gl : Globals) (frames : list Frame_t)
      (sleepTime : Z) (out : FrameOutput) :
  getPluginFrame fuel gl frames sleepTime = Ok out ->
  exists next,
    nextColor fuel (colorPanelIds gl) (currentColorIndex gl) = Ok next
    /\ out_globals out = setCurrentColorIndex gl next.
Proof.
  unfold getPluginFrame. intros H.
  destruct (resetPanels _ _ _) as [st | |]; try discriminate. cbn [bind] in H.
  destruct (setCurrentColor gl st sleepTime) as [painted | |]; try discriminate.
  cbn [bind] in H.
  destruct (nextColor fuel _ _) as [next | |]; try discriminate.
  injection H as <-. exists next. auto.
Qed.

Lemma ready_next (gl : Globals) (fuel : nat) (next : Z) :
  ready gl ->
  nextColor fuel (colorPanelIds gl) (currentColorIndex gl) = Ok next ->
  ready (setCurrentColorIndex gl next).
Proof.
  intros (Hids & Hcols & _ & Htt) Hn. apply nextColor_Ok in Hn.
  unfold ready, setCurrentColorIndex. cbn. auto.
Qed.

Lemma In_allPanelIds (slices : list FrameSlice_t) (s : FrameSlice_t) (id : Z) :
  In s slices -> In id (panelIds s) -> In id (allPanelIds slices).
Proof.
  intros Hs Hid. unfold allPanelIds. apply in_concat.
  exists (panelIds s). split; [apply in_map; assumption | assumption].
Qed.

(** The preconditions of the specification are enough for the selector: at
    least one slice, and in every slice at least one panel, no panel twice,
    and only identifiers that the layout knows and that differ from the
    ignored sentinel. *)
Lemma selectable_of_preconditions (layout : LayoutData)
      (slices : list FrameSlice_t) (transTime : option Z) :
  slices <> [] ->
  (forall s, In s slices ->
     panelIds s <> [] /\ NoDup (panelIds s)
     /\ forall id, In id (panelIds s) ->
          centroidY layout id <> None /\ id <> IGNORED_PANEL_ID) ->
  (forall t, transTime = Some t -> INT_MIN <= t <= INT_MAX) ->
  selectable layout slices transTime.
Proof.
  intros Hne Hall Ht. split; [| exact Ht].
  destruct (at_index_defined slices (middlestFrameSliceIndex slices))
    as [chosen Hc]; [apply middlestFrameSliceIndex_range; assumption |].
  exists chosen. split; [assumption |].
  destruct (Hall chosen (at_index_In _ _ _ Hc)) as (H1 & H2 & H3).
  repeat split; try assumption.
  - intros id Hid. apply (H3 id Hid).
  - intros Hin. apply (H3 _ Hin). reflexivity.
Qed.

(** The state that the selector leaves is ready. *)
Lemma initPlugin_ready (layout : LayoutData) (palette : list RGB_t)
      (slices : list FrameSlice_t) (transTime : option Z) (gl : Globals) :
  selectable layout slices transTime ->
  initPlugin layout palette slices transTime = Ok gl ->
  ready gl /\ frameSlices gl = slices /\ currentColorIndex gl = RED.
Proof.
  intros [(chosen & Hc & Hne & Hnd & Hall & Hno) Htt] Hinit.
  destruct (initPlugin_result layout palette slices transTime chosen Hc Hnd Hall)
    as (sorted & _ & P & _ & E).
  rewrite E, bindColorPanelIds_cases in Hinit. clear E.
  assert (Hin : forall id, In id sorted ->
                           In id (allPanelIds slices) /\ id <> IGNORED_PANEL_ID).
  { intros id Hid. apply (Permutation_in _ P) in Hid. split.
    - eapply In_allPanelIds; [eapply at_index_In; eassumption | assumption].
    - intros ->. contradiction. }
  assert (Hcols : length (firstn 3 palette
                          ++ skipn (length (firstn 3 palette)) defaultColors) = 3%nat).
  { destruct palette as [| c0 [| c1 [| c2 rest]]]; reflexivity. }
  assert (Htime : INT_MIN <= match transTime with Some t => t | None => 50 end
                  <= INT_MAX).
  { destruct transTime as [t |]; [apply Htt; reflexivity |].
    unfold INT_MIN, INT_MAX. lia. }
  destruct sorted as [| p0 [| p1 [| p2 rest]]]; cbn [bind] in Hinit;
    try discriminate; injection Hinit as <-;
    (split; [| split; reflexivity]); unfold ready; cbn;
    (split; [| split; [assumption | split; [| assumption]]]).
  - exists p0, p0, p0.
    destruct (Hin p0) as [? ?]; [cbn; auto |]. repeat split; auto.
  - exists p0. destruct (Hin p0) as [? ?]; [cbn; auto |]. auto.
  - exists p0, IGNORED_PANEL_ID, p1.
    destruct (Hin p0) as [? ?]; [cbn; auto |].
    destruct (Hin p1) as [? ?]; [cbn; auto |]. repeat split; auto.
  - exists p0. destruct (Hin p0) as [? ?]; [cbn; auto |]. auto.
  - exists p0, p1, p2.
    destruct (Hin p0) as [? ?]; [cbn; auto |].
    destruct (Hin p1) as [? ?]; [cbn; auto |].
    destruct (Hin p2) as [? ?]; [cbn; auto |]. repeat split; auto.
  - exists p0. destruct (Hin p0) as [? ?]; [cbn; auto |]. auto.
Qed.

(** Every state of a run is ready, on the slices that the selector saw. *)
Lemma reachable_ready (layout : LayoutData) (palette : list RGB_t)
      (slices : list FrameSlice_t) (transTime : option Z) (gl : Globals) :
  selectable layout slices transTime ->
  reachable layout palette slices transTime gl ->
  ready gl /\ frameSlices gl = slices.
Proof.
  intros Hsel. induction 1 as [gl Hinit | gl fuel frames sleepTime out _ IH Hcall].
  - destruct (initPlugin_ready _ _ _ _ _ Hsel Hinit) as (? & ? & _). auto.
  - destruct IH as [Hr Hs].
    destruct (getPluginFrame_Ok _ _ _ _ _ Hcall) as (next & Hn & ->).
    split; [eapply ready_next; eassumption | exact Hs].
Qed.

(** ** The frames of a call *)

Lemma firstn_set_nth_app {A : Type} (v w : list A) (n : nat) (a : A) :
  firstn (length v) (set_nth v n a ++ w) = set_nth v n a.
Proof.
  rewrite <- (set_nth_length v n a) at 1.
  rewrite firstn_app, Nat.sub_diag, firstn_all. cbn [firstn]. apply app_nil_r.
Qed.

Lemma skipn_set_nth_app {A : Type} (v w : list A) (n : nat) (a : A) :
  skipn (length v) (set_nth v n a ++ w) = w.
Proof.
  rewrite <- (set_nth_length v n a) at 1.
  rewrite skipn_app, Nat.sub_diag, skipn_all. reflexivity.
Qed.

Lemma map_panelId_set_nth (ids : list Z) (p : nat) (color : RGB_t) (id : Z) :
  nth_error ids p = Some id ->
  map panelId (set_nth (map blackFrame ids) p (colorFrame id color)) = ids.
Proof.
  revert p. induction ids as [| x ids IH]; intros [| p] H; cbn in *;
    try discriminate.
  - injection H as ->. f_equal. rewrite map_map. cbn. apply map_id.
  - f_equal. apply IH. assumption.
Qed.

(** C7.  In every state of a run, a call on a buffer with room for all panels
    returns; it reports as many frames as the slices hold panels, whatever
    colour is current; the reported entries carry the panel identifiers in
    the order of the slices and, within a slice, of its panels, one entry for
    each; and the buffer beyond the reported entries is as the caller left
    it. *)
Theorem getPluginFrame_one_frame_per_panel
        (layout : LayoutData) (palette : list RGB_t) (slices : list FrameSlice_t)
        (transTime : option Z) (gl : Globals) (frames : list Frame_t)
        (sleepTime : Z) (fuel : nat) :
  selectable layout slices transTime ->
  reachable layout palette slices transTime gl ->
  (length (allPanelIds slices) <= length frames)%nat ->
  (3 <= fuel)%nat ->
  exists out,
    getPluginFrame fuel gl frames sleepTime = Ok out
    /\ out_nFrames out = Z.of_nat (length (allPanelIds slices))
    /\ map panelId (firstn (length (allPanelIds slices)) (out_frames out))
       = allPanelIds slices
    /\ skipn (length (allPanelIds slices)) (out_frames out)
       = skipn (length (allPanelIds slices)) frames
    /\ length (out_frames out) = length frames.
Proof.
  intros Hsel Hreach Hfit Hfuel.
  destruct (reachable_ready _ _ _ _ _ Hsel Hreach) as [Hready Hs].
  rewrite <- Hs in *.
  destruct (getPluginFrame_ready gl frames sleepTime fuel Hready Hfit Hfuel)
    as (id & color & next & _ & _ & Hin & _ & _ & -> & _).
  destruct (lastIndexOf_found id _ Hin) as [_ Hp].
  eexists. split; [reflexivity |]. cbn [out_nFrames out_frames].
  set (ids := allPanelIds (frameSlices gl)) in *.
  set (p := Z.to_nat (lastIndexOf id ids 0 0)) in *.
  pose proof (firstn_set_nth_app (map blackFrame ids) (skipn (length ids) frames)
                                 p (colorFrame id color)) as F.
  pose proof (skipn_set_nth_app (map blackFrame ids) (skipn (length ids) frames)
                                p (colorFrame id color)) as S.
  rewrite length_map in F, S. rewrite F, S.
  repeat split.
  - apply map_panelId_set_nth. assumption.
  - rewrite length_app, set_nth_length, length_map, length_skipn. lia.
Qed.

Lemma filter_lit_black (ids : list Z) :
  filter (fun f => negb (isBlack f)) (map blackFrame ids) = [].
Proof. induction ids as [| x ids IH]; [reflexivity | exact IH]. Qed.

Lemma filter_lit_set_nth (ids : list Z) (p : nat) (f : Frame_t) :
  (p < length ids)%nat ->
  filter (fun f => negb (isBlack f)) (set_nth (map blackFrame ids) p f)
  = if isBlack f then [] else [f].
Proof.
  intros Hp. rewrite set_nth_split by (rewrite length_map; assumption).
  rewrite filter_app. cbn [filter].
  rewrite firstn_map, skipn_map, !filter_lit_black.
  destruct (isBlack f); reflexivity.
Qed.

(** C5, as amended.  In every state of a run, a call on a buffer with room
    for all panels returns frames in which one entry, that of the panel bound
    to the current slot, has the colour of that slot, every other entry is
    (0,0,0), and all have the transition time 1; the coloured entry is the
    only one that is not black unless the colour of the slot is itself
    (0,0,0), when none is. *)
Theorem getPluginFrame_lights_current_panel
        (layout : LayoutData) (palette : list RGB_t) (slices : list FrameSlice_t)
        (transTime : option Z) (gl : Globals) (frames : list Frame_t)
        (sleepTime : Z) (fuel : nat) :
  selectable layout slices transTime ->
  reachable layout palette slices transTime gl ->
  (length (allPanelIds slices) <= length frames)%nat ->
  (3 <= fuel)%nat ->
  exists out id color p,
    getPluginFrame fuel gl frames sleepTime = Ok out
    /\ at_index (colorPanelIds gl) (currentColorIndex gl) = Ok id
    /\ at_index (colors gl) (currentColorIndex gl) = Ok color
    /\ nth_error (allPanelIds slices) p = Some id
    /\ (forall k idk,
          nth_error (allPanelIds slices) k = Some idk ->
          nth_error (out_frames out) k
          = Some (if Nat.eqb k p
                  then mkFrame id (R color) (G color) (B color) 1
                  else mkFrame idk 0 0 0 1))
    /\ litFrames out
       = if (R color =? 0) && (G color =? 0) && (B color =? 0)
         then []
         else [mkFrame id (R color) (G color) (B color) 1].
Proof.
  intros Hsel Hreach Hfit Hfuel.
  destruct (reachable_ready _ _ _ _ _ Hsel Hreach) as [Hready Hs].
  rewrite <- Hs in *.
  destruct (getPluginFrame_ready gl frames sleepTime fuel Hready Hfit Hfuel)
    as (id & color & next & Hid & Hcolor & Hin & _ & _ & -> & _).
  destruct (lastIndexOf_found id _ Hin) as [Hr Hp].
  set (ids := allPanelIds (frameSlices gl)) in *.
  set (p := Z.to_nat (lastIndexOf id ids 0 0)) in *.
  assert (Hplt : (p < length ids)%nat) by (subst p; lia).
  eexists _, id, color, p. split; [reflexivity |].
  repeat split; try assumption.
  - intros k idk Hk. cbn [out_frames].
    assert (Hklt : (k < length ids)%nat) by (apply nth_error_Some; congruence).
    rewrite nth_error_app1 by (rewrite set_nth_length, length_map; assumption).
    rewrite nth_error_set_nth by (rewrite length_map; assumption).
    destruct (Nat.eqb k p); [reflexivity |].
    rewrite nth_error_map, Hk. reflexivity.
  - unfold litFrames. cbn [out_nFrames out_frames]. rewrite Nat2Z.id.
    pose proof (firstn_set_nth_app (map blackFrame ids) (skipn (length ids) frames)
                                   p (colorFrame id color)) as F.
    rewrite length_map in F. rewrite F.
    apply filter_lit_set_nth. assumption.
Qed.

(** ** The colour after a call *)

Lemma at_index_0 {A : Type} (a : A) (l : list A) : at_index (a :: l) 0 = Ok a.
Proof. reflexivity. Qed.

Lemma at_index_1 {A : Type} (a a' : A) (l : list A) :
  at_index (a :: a' :: l) 1 = Ok a'.
Proof. reflexivity. Qed.

Lemma at_index_2 {A : Type} (a a' a'' : A) (l : list A) :
  at_index (a :: a' :: a'' :: l) 2 = Ok a''.
Proof. reflexivity. Qed.

Ltac next_color_step :=
  rewrite nextColor_step;
  repeat first [ progress change (if 3 <=? 0 + 1 then 0 else 0 + 1) with 1
               | progress change (if 3 <=? 1 + 1 then 0 else 1 + 1) with 2
               | progress change (if 3 <=? 2 + 1 then 0 else 2 + 1) with 0 ];
  rewrite ?at_index_0, ?at_index_1, ?at_index_2; cbn [bind].

Ltac skipped_slots :=
  let s := fresh "s" in
  let Hs := fresh "Hs" in
  intros s Hs;
  first [ exfalso; lia
        | assert (s = 1) by lia; subst s; reflexivity
        | let E := fresh "E" in
          assert (E : s = 1 \/ s = 2) by lia;
          destruct E; subst s; reflexivity ].

Ltac next_color_found n :=
  eexists _, _, n;
  split; [reflexivity |];
  split; [reflexivity |];
  split; [apply Z.eqb_neq; assumption |];
  split; [lia |];
  split; [reflexivity | skipped_slots].

(** C9.  With three slots of which at least one is bound to a real panel,
    the loop that moves to the next colour ends: on three units of fuel or
    more it returns a slot that is not ignored.  That slot is reached from
    the current one in one, two or three increments with wrap-around from
    GREEN to RED, and every slot passed on the way is ignored. *)
Theorem nextColor_terminates (colorPanelIds : list Z) (cur : Z) (fuel : nat) :
  length colorPanelIds = 3%nat ->
  0 <= cur < MAXIMUM_COLORS_COUNT ->
  (exists slot id, at_index colorPanelIds slot = Ok id /\ id <> IGNORED_PANEL_ID) ->
  (3 <= fuel)%nat ->
  exists next id steps,
    nextColor fuel colorPanelIds cur = Ok next
    /\ at_index colorPanelIds next = Ok id /\ id <> IGNORED_PANEL_ID
    /\ 1 <= steps <= 3
    /\ next = (cur + steps) mod MAXIMUM_COLORS_COUNT
    /\ forall s, 1 <= s < steps ->
         at_index colorPanelIds ((cur + s) mod MAXIMUM_COLORS_COUNT)
         = Ok IGNORED_PANEL_ID.
Proof.
  intros Hlen Hcur (slot & sid & Hslot & Hsid) Hfuel.
  destruct colorPanelIds as [| red [| yellow [| green [| ? ?]]]];
    try discriminate Hlen.
  assert (Hlive : ~ (red = IGNORED_PANEL_ID /\ yellow = IGNORED_PANEL_ID
                     /\ green = IGNORED_PANEL_ID)).
  { intros (-> & -> & ->).
    pose proof (at_index_bounds _ _ _ Hslot) as Hb. cbn [length] in Hb.
    assert (C : slot = 0 \/ slot = 1 \/ slot = 2) by lia.
    destruct C as [-> | [-> | ->]]; injection Hslot as <-; congruence. }
  clear slot sid Hslot Hsid.
  change MAXIMUM_COLORS_COUNT with 3 in *.
  assert (C : cur = 0 \/ cur = 1 \/ cur = 2) by lia.
  enough (exists next id steps,
             nextColor 3 [red; yellow; green] cur = Ok next
             /\ at_index [red; yellow; green] next = Ok id /\ id <> IGNORED_PANEL_ID
             /\ 1 <= steps <= 3
             /\ next = (cur + steps) mod 3
             /\ forall s, 1 <= s < steps ->
                  at_index [red; yellow; green] ((cur + s) mod 3)
                  = Ok IGNORED_PANEL_ID)
    as (next & id & steps & Hn & Rest).
  { exists next, id, steps. split; [| exact Rest].
    eapply nextColor_more_fuel; eassumption. }
  destruct (Z.eq_dec red IGNORED_PANEL_ID) as [-> | Hr];
    destruct (Z.eq_dec yellow IGNORED_PANEL_ID) as [-> | Hy];
    destruct (Z.eq_dec green IGNORED_PANEL_ID) as [-> | Hg];
    try (exfalso; apply Hlive; auto; fail);
    try apply Z.eqb_neq in Hr; try apply Z.eqb_neq in Hy;
    try apply Z.eqb_neq in Hg;
    destruct C as [-> | [-> | ->]];
    repeat (next_color_step;
            repeat match goal with
                   | H : (_ =? IGNORED_PANEL_ID) = false |- _ => rewrite H
                   end;
            try change (IGNORED_PANEL_ID =? IGNORED_PANEL_ID) with true;
            cbv iota);
    first [ next_color_found 1 | next_color_found 2 | next_color_found 3 ].
Qed.

(** When all three slots are ignored the loop does not end: it uses up any
    amount of fuel. *)
Lemma nextColor_all_ignored (cur : Z) (fuel : nat) :
  0 <= cur < MAXIMUM_COLORS_COUNT ->
  nextColor fuel [IGNORED_PANEL_ID; IGNORED_PANEL_ID; IGNORED_PANEL_ID] cur
  = OutOfFuel.
Proof.
  change MAXIMUM_COLORS_COUNT with 3.
  revert cur. induction fuel as [| fuel IH]; intros cur Hc; [reflexivity |].
  assert (C : cur = 0 \/ cur = 1 \/ cur = 2) by lia.
  destruct C as [-> | [-> | ->]]; next_color_step;
    change (IGNORED_PANEL_ID =? IGNORED_PANEL_ID) with true; cbv iota;
    apply IH; lia.
Qed.

(** ** The sleep time *)

(** The literal [0.4] is the quotient of 4 and 10 in binary64, that is, the
    double nearest to four tenths. *)
Example double_0_4_nearest :
  SFdiv prec emax (int_to_double 4) (int_to_double 10) = double_0_4.
Proof. vm_compute. reflexivity. Qed.

Lemma Qtruncate_two_fifths (t : Z) :
  Qtruncate ((4 # 10) * inject_Z t) = Z.quot (2 * t) 5.
Proof.
  unfold Qtruncate, Qle_bool, Qceiling, Qfloor, Qopp, Qmult, inject_Z.
  cbn [Qnum Qden]. change (Zpos (10 * 1)) with 10.
  rewrite Z.mul_1_r. change (0 * 10) with 0.
  destruct (Z.leb_spec 0 (4 * t)) as [H | H].
  - rewrite Z.quot_div_nonneg by lia.
    replace (4 * t) with (2 * (2 * t)) by ring. change 10 with (2 * 5).
    apply Z.div_mul_cancel_l; lia.
  - replace (2 * t) with (- (2 * - t)) by ring.
    rewrite Z.quot_opp_l, Z.quot_div_nonneg by lia.
    replace (- (4 * t)) with (2 * (2 * - t)) by ring. change 10 with (2 * 5).
    rewrite Z.div_mul_cancel_l by lia. reflexivity.
Qed.

(** C6, as amended.  In every state of a run, a call on a buffer with room
    for all panels reports the transition time as the next delay when the
    current colour is RED or GREEN, and 0.4 times the transition time with
    the fraction dropped (rounded toward zero, the delay being an integer)
    when it is YELLOW; that is exactly 0.4 times the transition time when
    the transition time is a multiple of 5. *)
Theorem getPluginFrame_sleepTime
        (layout : LayoutData) (palette : list RGB_t) (slices : list FrameSlice_t)
        (transTime : option Z) (gl : Globals) (frames : list Frame_t)
        (sleepTime : Z) (fuel : nat) :
  selectable layout slices transTime ->
  reachable layout palette slices transTime gl ->
  (length (allPanelIds slices) <= length frames)%nat ->
  (3 <= fuel)%nat ->
  exists out,
    getPluginFrame fuel gl frames sleepTime = Ok out
    /\ out_sleepTime out
       = (if currentColorIndex gl =? YELLOW
          then Qtruncate ((4 # 10) * inject_Z (transitionTime gl))
          else transitionTime gl)
    /\ (transitionTime gl mod 5 = 0 -> spec_sleepTime gl (out_sleepTime out)).
Proof.
  intros Hsel Hreach Hfit Hfuel.
  destruct (reachable_ready _ _ _ _ _ Hsel Hreach) as [Hready Hs].
  rewrite <- Hs in *.
  destruct (getPluginFrame_ready gl frames sleepTime fuel Hready Hfit Hfuel)
    as (id & color & next & _ & _ & _ & _ & _ & -> & _).
  eexists. split; [reflexivity |]. cbn [out_sleepTime].
  unfold sleepTimeOf, spec_sleepTime. rewrite Qtruncate_two_fifths.
  split; [reflexivity |]. intros H5.
  destruct (currentColorIndex gl =? YELLOW); [| reflexivity].
  apply Z.mod_divide in H5; [| lia]. destruct H5 as [k Hk]. rewrite Hk.
  replace (2 * (k * 5)) with (2 * k * 5) by ring.
  rewrite Z.quot_mul by lia.
  unfold Qeq, Qmult, inject_Z. cbn [Qnum Qden]. lia.
Qed.

(** ** The order of the colours *)

Lemma getPluginFrame_step (gl : Globals) (frames : list Frame_t)
      (sleepTime : Z) (fuel : nat) :
  ready gl ->
  (length (allPanelIds (frameSlices gl)) <= length frames)%nat ->
  (3 <= fuel)%nat ->
  exists out next,
    getPluginFrame fuel gl frames sleepTime = Ok out
    /\ nextColor 3 (colorPanelIds gl) (currentColorIndex gl) = Ok next
    /\ out_globals out = setCurrentColorIndex gl next
    /\ ready (out_globals out)
    /\ length (out_frames out) = length frames.
Proof.
  intros Hready Hfit Hfuel.
  destruct (getPluginFrame_ready gl frames sleepTime fuel Hready Hfit Hfuel)
    as (id & color & next & _ & _ & _ & _ & Hn & -> & Hr).
  eexists _, next. split; [reflexivity |]. cbn [out_globals out_frames].
  split; [assumption |]. split; [reflexivity |]. split; [assumption |].
  rewrite length_app, set_nth_length, length_map, length_skipn. lia.
Qed.

(** With three real panels the colours follow one another in the order red,
    yellow, green. *)
Lemma activeSlots_three (red yellow green : Z) (fuel : nat) :
  (3 <= fuel)%nat ->
  red <> IGNORED_PANEL_ID -> yellow <> IGNORED_PANEL_ID ->
  green <> IGNORED_PANEL_ID ->
  forall n gl frames sleepTime,
    ready gl ->
    colorPanelIds gl = [red; yellow; green] ->
    (length (allPanelIds (frameSlices gl)) <= length frames)%nat ->
    activeSlots fuel n gl frames sleepTime
    = Ok (map (fun k => (currentColorIndex gl + Z.of_nat k) mod 3) (seq 0 n)).
Proof.
  intros Hfuel Hr Hy Hg.
  induction n as [| n IH]; intros gl frames sleepTime Hready Hids Hfit;
    [reflexivity |].
  destruct (getPluginFrame_step gl frames sleepTime fuel Hready Hfit Hfuel)
    as (out & next & Hcall & Hnext & Hgl & Hready' & Hlen).
  cbn [activeSlots]. rewrite Hcall. cbn [bind].
  assert (Hcur : 0 <= currentColorIndex gl < 3).
  { destruct Hready as (_ & _ & (id & Hid & _) & _).
    apply at_index_bounds in Hid. rewrite Hids in Hid. exact Hid. }
  rewrite Hids, (nextColor_ready red yellow green _ 3 Hr Hg Hcur (le_n 3)) in Hnext.
  apply Z.eqb_neq in Hy. rewrite Hy in Hnext. injection Hnext as Hnext.
  rewrite IH; [| assumption | rewrite Hgl; exact Hids
               | rewrite Hgl, Hlen; exact Hfit].
  cbn [bind]. rewrite Hgl. cbn [setCurrentColorIndex currentColorIndex].
  cbn [seq map]. rewrite <- seq_shift, map_map. f_equal. f_equal.
  - rewrite Z.add_0_r, Z.mod_small by assumption. reflexivity.
  - apply map_ext. intros k. rewrite Nat2Z.inj_succ. subst next.
    assert (C : currentColorIndex gl = 0 \/ currentColorIndex gl = 1
                \/ currentColorIndex gl = 2) by lia.
    destruct C as [-> | [-> | ->]].
    + change (0 =? RED) with true. cbv iota. f_equal. unfold YELLOW. lia.
    + change (1 =? RED) with false. change (1 =? YELLOW) with true. cbv iota.
      f_equal. unfold GREEN. lia.
    + change (2 =? RED) with false. change (2 =? YELLOW) with false. cbv iota.
      replace (2 + Z.succ (Z.of_nat k)) with (Z.of_nat k + 1 * 3) by lia.
      rewrite Z_mod_plus_full. reflexivity.
Qed.

(** With the yellow slot ignored the colours alternate between red and
    green. *)
Lemma activeSlots_two (red green : Z) (fuel : nat) :
  (3 <= fuel)%nat ->
  red <> IGNORED_PANEL_ID -> green <> IGNORED_PANEL_ID ->
  forall n gl frames sleepTime,
    ready gl ->
    colorPanelIds gl = [red; IGNORED_PANEL_ID; green] ->
    (length (allPanelIds (frameSlices gl)) <= length frames)%nat ->
    activeSlots fuel n gl frames sleepTime
    = Ok (map (fun k => if Nat.even k then currentColorIndex gl
                        else GREEN - currentColorIndex gl) (seq 0 n)).
Proof.
  intros Hfuel Hr Hg.
  induction n as [| n IH]; intros gl frames sleepTime Hready Hids Hfit;
    [reflexivity |].
  destruct (getPluginFrame_step gl frames sleepTime fuel Hready Hfit Hfuel)
    as (out & next & Hcall & Hnext & Hgl & Hready' & Hlen).
  cbn [activeSlots]. rewrite Hcall. cbn [bind].
  assert (Hcur : currentColorIndex gl = RED \/ currentColorIndex gl = GREEN).
  { destruct Hready as (_ & _ & (id & Hid & Hid') & _).
    pose proof (at_index_bounds _ _ _ Hid) as Hb. rewrite Hids in Hid, Hb.
    cbn [length] in Hb.
    assert (C : currentColorIndex gl = 0 \/ currentColorIndex gl = 1
                \/ currentColorIndex gl = 2) by lia.
    destruct C as [E | [E | E]]; rewrite E in Hid; auto.
    injection Hid as <-. congruence. }
  rewrite Hids in Hnext.
  rewrite (nextColor_ready red IGNORED_PANEL_ID green _ 3 Hr Hg) in Hnext;
    [| destruct Hcur as [-> | ->]; unfold RED, GREEN; lia | lia].
  injection Hnext as Hnext.
  rewrite IH; [| assumption | rewrite Hgl; exact Hids
               | rewrite Hgl, Hlen; exact Hfit].
  cbn [bind]. rewrite Hgl. cbn [setCurrentColorIndex currentColorIndex].
  cbn [seq map Nat.even]. rewrite <- seq_shift, map_map. do 2 f_equal.
  apply map_ext. intros k. rewrite Nat.even_succ, <- Nat.negb_even. subst next.
  destruct Hcur as [-> | ->]; destruct (Nat.even k); reflexivity.
Qed.

(** C4.  From the state that the selector leaves, in which the current slot
    is RED, the slots that are current in the first [n] calls of the driver
    are RED, YELLOW, GREEN in turn (slot number [k mod 3] in call [k]) when
    none of the three slots is ignored, and RED and GREEN in turn (RED in the
    calls with an even number) when the YELLOW slot holds the ignored
    sentinel. *)
Theorem activeSlots_cycle
        (layout : LayoutData) (palette : list RGB_t) (slices : list FrameSlice_t)
        (transTime : option Z) (gl : Globals) (frames : list Frame_t)
        (sleepTime : Z) (fuel n : nat) :
  selectable layout slices transTime ->
  initPlugin layout palette slices transTime = Ok gl ->
  (length (allPanelIds slices) <= length frames)%nat ->
  (3 <= fuel)%nat ->
  currentColorIndex gl = RED
  /\ ((forall id, In id (colorPanelIds gl) -> id <> IGNORED_PANEL_ID) ->
      activeSlots fuel n gl frames sleepTime
      = Ok (map (fun k => Z.of_nat k mod 3) (seq 0 n)))
  /\ (at_index (colorPanelIds gl) YELLOW = Ok IGNORED_PANEL_ID ->
      activeSlots fuel n gl frames sleepTime
      = Ok (map (fun k => if Nat.even k then RED else GREEN) (seq 0 n))).
Proof.
  intros Hsel Hinit Hfit Hfuel.
  destruct (initPlugin_ready _ _ _ _ _ Hsel Hinit) as (Hready & Hs & Hcur).
  rewrite <- Hs in Hfit.
  pose proof Hready as ((red & yellow & green & Hids & _ & Hr & _ & Hg & _) & _).
  split; [exact Hcur |]. split.
  - intros Hreal.
    rewrite (activeSlots_three red yellow green fuel Hfuel Hr) ; try assumption.
    + rewrite Hcur. reflexivity.
    + apply Hreal. rewrite Hids. cbn. auto.
  - intros Hy. rewrite Hids in Hy. injection Hy as ->.
    rewrite (activeSlots_two red green fuel Hfuel Hr Hg); try assumption.
    rewrite Hcur. reflexivity.
Qed.

(** ** The examples *)

Lemma reach_frame_to (layout : LayoutData) (palette : list RGB_t)
      (slices : list FrameSlice_t) (transTime : option Z)
      (gl gl' : Globals) (fuel : nat) (frames : list Frame_t) (sleepTime : Z) :
  reachable layout palette slices transTime gl ->
  (exists out, getPluginFrame fuel gl frames sleepTime = Ok out
               /\ out_globals out = gl') ->
  reachable layout palette slices transTime gl'.
Proof.
  intros Hr (out & Hcall & <-). eapply reach_frame; eassumption.
Qed.

Lemma tall_middle_selectable (transTime : option Z) :
  (forall t, transTime = Some t -> INT_MIN <= t <= INT_MAX) ->
  selectable five_panels tall_middle transTime.
Proof.
  intros Ht. split; [| exact Ht].
  exists (mkSlice [3; 2; 5]). split; [reflexivity |].
  split; [discriminate |]. split; [distinct_panels |]. split; [known_panels |].
  cbn. intros [H | [H | [H | []]]]; discriminate H.
Qed.

Lemma tall_middle_yellow_reachable :
  reachable five_panels [] tall_middle None tall_middle_yellow.
Proof.
  apply (reach_frame_to _ _ _ _ tall_middle_start _ 3%nat example_buffer 0).
  - apply reach_init. vm_compute. reflexivity.
  - eexists. split; vm_compute; reflexivity.
Qed.

Lemma three_ms_yellow_reachable :
  reachable five_panels [] tall_middle (Some 3) three_ms_yellow.
Proof.
  apply (reach_frame_to _ _ _ _ (setCurrentColorIndex three_ms_yellow RED) _
                        3%nat example_buffer 0).
  - apply reach_init. vm_compute. reflexivity.
  - eexists. split; vm_compute; reflexivity.
Qed.

(** C4 on seven calls from the state that the selector leaves on
    [tall_middle]. *)
Lemma activeSlots_cycle_witness :
  currentColorIndex tall_middle_start = RED
  /\ ((forall id, In id (colorPanelIds tall_middle_start) -> id <> IGNORED_PANEL_ID) ->
      activeSlots 3 7 tall_middle_start example_buffer 0
      = Ok (map (fun k => Z.of_nat k mod 3) (seq 0 7)))
  /\ (at_index (colorPanelIds tall_middle_start) YELLOW = Ok IGNORED_PANEL_ID ->
      activeSlots 3 7 tall_middle_start example_buffer 0
      = Ok (map (fun k => if Nat.even k then RED else GREEN) (seq 0 7))).
Proof.
  apply (activeSlots_cycle five_panels [] tall_middle None).
  - apply tall_middle_selectable. discriminate.
  - reflexivity.
  - vm_compute. lia.
  - lia.
Defined.

(** C5, as amended, on the call with yellow current on [tall_middle]. *)
Lemma getPluginFrame_lights_current_panel_witness :
  exists out id color p,
    getPluginFrame 3 tall_middle_yellow example_buffer 0 = Ok out
    /\ at_index (colorPanelIds tall_middle_yellow)
                (currentColorIndex tall_middle_yellow) = Ok id
    /\ at_index (colors tall_middle_yellow)
                (currentColorIndex tall_middle_yellow) = Ok color
    /\ nth_error (allPanelIds tall_middle) p = Some id
    /\ (forall k idk,
          nth_error (allPanelIds tall_middle) k = Some idk ->
          nth_error (out_frames out) k
          = Some (if Nat.eqb k p
                  then mkFrame id (R color) (G color) (B color) 1
                  else mkFrame idk 0 0 0 1))
    /\ litFrames out
       = if (R color =? 0) && (G color =? 0) && (B color =? 0)
         then []
         else [mkFrame id (R color) (G color) (B color) 1].
Proof.
  apply (getPluginFrame_lights_current_panel five_panels [] tall_middle None).
  - apply tall_middle_selectable. discriminate.
  - exact tall_middle_yellow_reachable.
  - vm_compute. lia.
  - lia.
Defined.

(** C5, counterexample.  With a palette whose first colour is (0,0,0) the
    call in the initial state paints the red panel black: no entry of the
    frames is lit, where the specification has exactly one. *)
Lemma getPluginFrame_black_palette_colour :
  initPlugin five_panels [mkRGB 0 0 0] tall_middle None = Ok black_red_start
  /\ exists out,
       getPluginFrame 3 black_red_start example_buffer 0 = Ok out
       /\ litFrames out = []
       /\ ~ spec_one_lit out.
Proof.
  split; [vm_compute; reflexivity |].
  eexists. split; [vm_compute; reflexivity |].
  split; [vm_compute; reflexivity |]. vm_compute. discriminate.
Qed.

(** C6, as amended, on the call with yellow current on [tall_middle]. *)
Lemma getPluginFrame_sleepTime_witness :
  exists out,
    getPluginFrame 3 tall_middle_yellow example_buffer 0 = Ok out
    /\ out_sleepTime out
       = (if currentColorIndex tall_middle_yellow =? YELLOW
          then Qtruncate ((4 # 10) * inject_Z (transitionTime tall_middle_yellow))
          else transitionTime tall_middle_yellow)
    /\ (transitionTime tall_middle_yellow mod 5 = 0 ->
        spec_sleepTime tall_middle_yellow (out_sleepTime out)).
Proof.
  apply (getPluginFrame_sleepTime five_panels [] tall_middle None).
  - apply tall_middle_selectable. discriminate.
  - exact tall_middle_yellow_reachable.
  - vm_compute. lia.
  - lia.
Defined.

(** C6, counterexample.  With a transition time of 3 ms the call with yellow
    current reports 1 ms, the integer part of 1.2: the delay is an [int] and
    cannot be 0.4 times 3. *)
Lemma getPluginFrame_yellow_three_ms :
  reachable five_panels [] tall_middle (Some 3) three_ms_yellow
  /\ exists out,
       getPluginFrame 3 three_ms_yellow example_buffer 0 = Ok out
       /\ out_sleepTime out = 1
       /\ ~ spec_sleepTime three_ms_yellow (out_sleepTime out).
Proof.
  split; [exact three_ms_yellow_reachable |].
  eexists. split; [vm_compute; reflexivity |].
  split; [vm_compute; reflexivity |]. vm_compute. discriminate.
Qed.

(** C7 on the call with yellow current on [tall_middle], on a buffer with
    one entry more than there are panels. *)
Lemma getPluginFrame_one_frame_per_panel_witness :
  exists out,
    getPluginFrame 3 tall_middle_yellow example_buffer 0 = Ok out
    /\ out_nFrames out = Z.of_nat (length (allPanelIds tall_middle))
    /\ map panelId (firstn (length (allPanelIds tall_middle)) (out_frames out))
       = allPanelIds tall_middle
    /\ skipn (length (allPanelIds tall_middle)) (out_frames out)
       = skipn (length (allPanelIds tall_middle)) example_buffer
    /\ length (out_frames out) = length example_buffer.
Proof.
  apply (getPluginFrame_one_frame_per_panel five_panels [] tall_middle None).
  - apply tall_middle_selectable. discriminate.
  - exact tall_middle_yellow_reachable.
  - vm_compute. lia.
  - lia.
Defined.

(** C9 on the slots of a slice of two panels, from RED. *)
Lemma nextColor_terminates_witness :
  exists next id steps,
    nextColor 3 [2; IGNORED_PANEL_ID; 3] RED = Ok next
    /\ at_index [2; IGNORED_PANEL_ID; 3] next = Ok id /\ id <> IGNORED_PANEL_ID
    /\ 1 <= steps <= 3
    /\ next = (RED + steps) mod MAXIMUM_COLORS_COUNT
    /\ forall s, 1 <= s < steps ->
         at_index [2; IGNORED_PANEL_ID; 3] ((RED + s) mod MAXIMUM_COLORS_COUNT)
         = Ok IGNORED_PANEL_ID.
Proof.
  apply (nextColor_terminates [2; IGNORED_PANEL_ID; 3] RED 3).
  - reflexivity.
  - unfold RED, MAXIMUM_COLORS_COUNT, GREEN. lia.
  - exists 0, 2. split; [reflexivity | discriminate].
  - lia.
Defined.

(** ** The example of the specification

    Five slices of one panel, default colours, [transTime] 50: the middle
    index is 2, all three slots are bound to panel 30, and the first three
    calls show it red, yellow and green with the delays 50, 20 and 50. *)

Example spec_example_selection :
  middleFrameSliceIndex 5 = 2
  /\ exists gl,
       initPlugin spec_example_layout [] spec_example_slices (Some 50) = Ok gl
       /\ colorPanelIds gl = [30; 30; 30]
       /\ colors gl = [mkRGB 255 0 0; mkRGB 255 255 0; mkRGB 0 255 0].
Proof.
  split; [reflexivity |]. eexists. split; [vm_compute; reflexivity |].
  split; reflexivity.
Qed.

Example spec_example_ticks :
  exists gl out1 out2 out3,
    initPlugin spec_example_layout [] spec_example_slices (Some 50) = Ok gl
    /\ getPluginFrame 3 gl example_buffer 0 = Ok out1
    /\ getPluginFrame 3 (out_globals out1) (out_frames out1) (out_sleepTime out1)
       = Ok out2
    /\ getPluginFrame 3 (out_globals out2) (out_frames out2) (out_sleepTime out2)
       = Ok out3
    /\ map out_sleepTime [out1; out2; out3] = [50; 20; 50]
    /\ map out_nFrames [out1; out2; out3] = [5; 5; 5]
    /\ map litFrames [out1; out2; out3]
       = [[mkFrame 30 255 0 0 1]; [mkFrame 30 255 255 0 1]; [mkFrame 30 0 255 0 1]]
    /\ currentColorIndex (out_globals out3) = RED.
Proof.
  do 4 eexists.
  split; [vm_compute; reflexivity |].
  split; [vm_compute; reflexivity |].
  split; [vm_compute; reflexivity |].
  split; [vm_compute; reflexivity |].
  repeat split; vm_compute; reflexivity.
Qed.

(** The colours of six calls on three panels and on two. *)
Example activeSlots_examples :
  initPlugin five_panels [] tall_middle None = Ok tall_middle_start
  /\ activeSlots 3 6 tall_middle_start example_buffer 0
     = Ok [RED; YELLOW; GREEN; RED; YELLOW; GREEN]
  /\ initPlugin five_panels [] pair_in_the_middle None = Ok pair_start
  /\ activeSlots 3 6 pair_start example_buffer 0
     = Ok [RED; GREEN; RED; GREEN; RED; GREEN].
Proof. repeat split; vm_compute; reflexivity. Qed.

(** * Further properties of the selector *)

(** ** The configuration *)

(** X1.  When the selector returns, the colour of slot [i] is the colour
    [i] of the palette when the palette has one, and the default (red,
    yellow, green) otherwise; palette colours after the third are not used;
    the transition time is the [transTime] option, and 50 when the option is
    absent. *)
Theorem initPlugin_configuration (layout : LayoutData) (palette : list RGB_t)
        (slices : list FrameSlice_t) (transTime : option Z) (gl : Globals) :
  initPlugin layout palette slices transTime = Ok gl ->
  length (colors gl) = 3%nat
  /\ (forall i, 0 <= i < MINIMUM_PANELS_COUNT ->
        at_index (colors gl) i
        = if i <? Z.of_nat (length palette) then at_index palette i
          else at_index defaultColors i)
  /\ transitionTime gl = match transTime with Some t => t | None => 50 end
  /\ paletteColors gl = palette /\ frameSlices gl = slices.
Proof.
  unfold initPlugin. rewrite loadUserColors_defaults. cbn [bind]. intros H.
  destruct (middlestPanelIds layout slices) as [sorted | |]; try discriminate.
  cbn [bind] in H.
  destruct (bindColorPanelIds sorted) as [ids | |]; try discriminate.
  injection H as <-. cbn [colors transitionTime paletteColors frameSlices].
  split; [| split; [| auto]].
  - destruct palette as [| c0 [| c1 [| c2 rest]]]; reflexivity.
  - intros i Hi. unfold MINIMUM_PANELS_COUNT in Hi.
    assert (C : i = 0 \/ i = 1 \/ i = 2) by lia.
    destruct palette as [| c0 [| c1 [| c2 rest]]];
      destruct C as [-> | [-> | ->]]; try reflexivity;
      match goal with
      | |- context [?a <? ?c] =>
          destruct (Z.ltb_spec a c); [reflexivity | cbn [length] in *; lia]
      end.
Qed.

(** X1 on a palette of one colour and an absent [transTime]. *)
Lemma initPlugin_configuration_witness :
  length (colors black_red_start) = 3%nat
  /\ (forall i, 0 <= i < MINIMUM_PANELS_COUNT ->
        at_index (colors black_red_start) i
        = if i <? Z.of_nat (length [mkRGB 0 0 0]) then at_index [mkRGB 0 0 0] i
          else at_index defaultColors i)
  /\ transitionTime black_red_start
     = match @None Z with Some t => t | None => 50 end
  /\ paletteColors black_red_start = [mkRGB 0 0 0]
  /\ frameSlices black_red_start = tall_middle.
Proof.
  apply (initPlugin_configuration five_panels [mkRGB 0 0 0] tall_middle None).
  vm_compute. reflexivity.
Defined.

(** ** The middle index *)

(** X2.  For at least one slice the middle index is an index of the slice
    sequence, and it is the left one of the two central indices when the
    number of slices is even: as many slices lie before it as after it, or
    one fewer.  It is the ceiling of (N-1)/2 for an odd number of slices and
    one below it for an even number. *)
Theorem middleFrameSliceIndex_left_centre (N : Z) :
  1 <= N ->
  0 <= middleFrameSliceIndex N < N
  /\ middleFrameSliceIndex N <= N - 1 - middleFrameSliceIndex N
     <= middleFrameSliceIndex N + 1
  /\ middleFrameSliceIndex N
     = (if Z.even N then spec_middleIndex N - 1 else spec_middleIndex N).
Proof.
  intros H. split; [apply middleFrameSliceIndex_range; assumption |].
  split.
  - rewrite middleFrameSliceIndex_floor by assumption.
    assert (E : N - 1 = 2 * ((N - 1) / 2) + (N - 1) mod 2)
      by (apply Z.div_mod; lia).
    assert (M : 0 <= (N - 1) mod 2 < 2) by (apply Z.mod_pos_bound; lia).
    lia.
  - apply middleFrameSliceIndex_parity. assumption.
Qed.

(** X2 on six slices. *)
Lemma middleFrameSliceIndex_left_centre_witness :
  0 <= middleFrameSliceIndex 6 < 6
  /\ middleFrameSliceIndex 6 <= 6 - 1 - middleFrameSliceIndex 6
     <= middleFrameSliceIndex 6 + 1
  /\ middleFrameSliceIndex 6
     = (if Z.even 6 then spec_middleIndex 6 - 1 else spec_middleIndex 6).
Proof. apply (middleFrameSliceIndex_left_centre 6). lia. Defined.

(** ** The chosen slice *)

(** X3.  With at least one slice the selector reads a slice that exists: the
    chosen index is an index of the slice sequence.  The chosen slice is the
    middle one or a slice with at least three panels that is nearer to the
    middle than 31. *)
Theorem middlestFrameSlice_exists (slices : list FrameSlice_t) :
  slices <> [] ->
  exists chosen,
    at_index slices (middlestFrameSliceIndex slices) = Ok chosen
    /\ In chosen slices
    /\ (middlestFrameSliceIndex slices
        = middleFrameSliceIndex (Z.of_nat (length slices))
        \/ (MINIMUM_PANELS_COUNT <= Z.of_nat (length (panelIds chosen))
            /\ distance (middleFrameSliceIndex (Z.of_nat (length slices)))
                        (middlestFrameSliceIndex slices) < 31)).
Proof.
  intros Hne.
  destruct (at_index_defined slices (middlestFrameSliceIndex slices))
    as [chosen Hc]; [apply middlestFrameSliceIndex_range; assumption |].
  exists chosen. split; [assumption |].
  split; [eapply at_index_In; eassumption |].
  revert Hc. unfold middlestFrameSliceIndex.
  pose proof (searchMiddlest_result slices
                (middleFrameSliceIndex (Z.of_nat (length slices)))) as Inv.
  destruct (searchMiddlest _ slices 0 (31, -1)) as [d found].
  unfold search_inv in Inv. cbn [fst snd] in *.
  destruct (Z.eqb_spec found (-1)) as [E | E]; [auto |].
  destruct Inv as [(S & _) | (_ & [(s & Hs & Hn) Hr] & _)]; [contradiction |].
  intros Hc. right. rewrite Hs in Hc. injection Hc as <-. auto.
Qed.

(** X3 on the three slices of [tall_middle]. *)
Lemma middlestFrameSlice_exists_witness :
  exists chosen,
    at_index tall_middle (middlestFrameSliceIndex tall_middle) = Ok chosen
    /\ In chosen tall_middle
    /\ (middlestFrameSliceIndex tall_middle
        = middleFrameSliceIndex (Z.of_nat (length tall_middle))
        \/ (MINIMUM_PANELS_COUNT <= Z.of_nat (length (panelIds chosen))
            /\ distance (middleFrameSliceIndex (Z.of_nat (length tall_middle)))
                        (middlestFrameSliceIndex tall_middle) < 31)).
Proof. apply (middlestFrameSlice_exists tall_middle). discriminate. Defined.

(** X4.  On at most 61 slices every slice is nearer to the middle than 31,
    and the choice is the one that the specification describes: the nearest
    slice with at least three panels, the lowest index among the nearest, and
    the middle slice when no slice has three panels. *)
Theorem middlestFrameSliceIndex_up_to_61_slices (slices : list FrameSlice_t) :
  (length slices <= 61)%nat ->
  spec_choice slices (middlestFrameSliceIndex slices).
Proof.
  intros Hlen. unfold spec_choice. cbv zeta.
  set (middle := middleFrameSliceIndex (Z.of_nat (length slices))).
  assert (Hreach : forall j, qualifies slices j -> in_reach slices middle j).
  { intros j Hj. split; [assumption |].
    pose proof (qualifies_bounds _ _ Hj) as Hb.
    assert (Hm : middle = (Z.of_nat (length slices) - 1) / 2)
      by (apply middleFrameSliceIndex_floor; lia).
    assert (E : Z.of_nat (length slices) - 1
                = 2 * ((Z.of_nat (length slices) - 1) / 2)
                  + (Z.of_nat (length slices) - 1) mod 2)
      by (apply Z.div_mod; lia).
    assert (M : 0 <= (Z.of_nat (length slices) - 1) mod 2 < 2)
      by (apply Z.mod_pos_bound; lia).
    unfold distance. lia. }
  split.
  - intros [j Hj].
    unfold middlestFrameSliceIndex. fold middle.
    pose proof (searchMiddlest_result slices middle) as Inv.
    destruct (searchMiddlest middle slices 0 (31, -1)) as [d found].
    unfold search_inv in Inv. cbn [fst snd] in *.
    destruct Inv as [(_ & _ & No) | (Rg & [Hq Hr] & F & Best)].
    + exfalso. apply (No j); [| apply Hreach; exact Hj].
      apply qualifies_bounds in Hj. lia.
    + destruct (Z.eqb_spec found (-1)) as [E | _]; [lia |].
      split; [exact Hq |].
      intros i Hi. rewrite <- F. apply Best; [| exact Hi].
      apply qualifies_bounds in Hi. lia.
  - intros No. apply middlestFrameSliceIndex_fallback.
    intros j [Hj _]. exact (No j Hj).
Qed.

(** X4 on [tall_middle]. *)
Lemma middlestFrameSliceIndex_up_to_61_slices_witness :
  spec_choice tall_middle (middlestFrameSliceIndex tall_middle).
Proof. apply middlestFrameSliceIndex_up_to_61_slices. cbn. lia. Defined.


(** ** The comparator *)

(** X6.  The comparator of the sort has a result exactly on two different
    identifiers that the layout both has, and the result tells whether the
    first centroid is higher; a panel compared with itself, or with a panel
    that the layout does not have, leaves a centroid unassigned.  Where it
    has results it is a strict order: not symmetric, and transitive. *)
Theorem higherPanel_strict_order (layout : LayoutData) :
  (forall a c res,
      higherPanel layout a c = Ok res
      <-> a <> c /\ exists ya yc, centroidY layout a = Some ya
                                  /\ centroidY layout c = Some yc
                                  /\ res = Qgtb ya yc)
  /\ (forall a, higherPanel layout a a = Undefined)
  /\ (forall a c, centroidY layout a = None -> higherPanel layout a c = Undefined)
  /\ (forall a c, higherPanel layout a c = Ok true ->
                  higherPanel layout c a = Ok false)
  /\ (forall a c d, higherPanel layout a c = Ok true ->
                    higherPanel layout c d = Ok true ->
                    higherPanel layout a d = Ok true).
Proof.
  assert (Never : forall a c, higherPanel layout a c <> OutOfFuel).
  { intros a c. unfold higherPanel.
    destruct (lookupCentroids _ _ _ _) as [[? |] [? |]]; discriminate. }
  assert (Undef : forall a c, (forall res, higherPanel layout a c <> Ok res) ->
                              higherPanel layout a c = Undefined).
  { intros a c H. destruct (higherPanel layout a c) as [res | |] eqn:E.
    - exfalso. exact (H res eq_refl).
    - reflexivity.
    - exfalso. exact (Never a c E). }
  split; [| split; [| split; [| split]]].
  - intros a c res. split; [apply higherPanel_Ok |].
    intros (Hac & ya & yc & Ha & Hc & ->). apply higherPanel_distinct; assumption.
  - intros a. apply Undef. intros res H.
    apply higherPanel_Ok in H as [H _]. congruence.
  - intros a c Ha. apply Undef. intros res H.
    apply higherPanel_Ok in H as (_ & ya & yc & Ha' & _). congruence.
  - intros a c H. apply higherPanel_Ok in H as (Hac & ya & yc & Ha & Hc & Hres).
    rewrite (higherPanel_distinct layout c a yc ya) by auto.
    f_equal. unfold Qgtb in *. symmetry in Hres.
    apply negb_true_iff in Hres. apply negb_false_iff, Qle_bool_iff.
    apply Qlt_le_weak, Qnot_le_lt. intros L. apply Qle_bool_iff in L. congruence.
  - intros a c d H1 H2.
    apply higherPanel_Ok in H1 as (_ & ya & yc & Ha & Hc & H1).
    apply higherPanel_Ok in H2 as (_ & yc' & yd & Hc' & Hd & H2).
    rewrite Hc in Hc'. injection Hc' as <-.
    assert (Lt1 : (yc < ya)%Q).
    { apply Qnot_le_lt. intros L. apply Qle_bool_iff in L.
      unfold Qgtb in H1. rewrite L in H1. discriminate. }
    assert (Lt2 : (yd < yc)%Q).
    { apply Qnot_le_lt. intros L. apply Qle_bool_iff in L.
      unfold Qgtb in H2. rewrite L in H2. discriminate. }
    assert (Lt : (yd < ya)%Q) by (eapply Qlt_trans; eassumption).
    rewrite (higherPanel_distinct layout a d ya yd); auto.
    + f_equal. unfold Qgtb. apply negb_true_iff.
      apply Bool.not_true_is_false. intros L. apply Qle_bool_iff in L.
      apply Qle_not_lt in L. contradiction.
    + intros ->. rewrite Ha in Hd. injection Hd as ->.
      exact (Qlt_irrefl _ Lt).
Qed.

(** ** The three panels *)

(** X7.  On a chosen slice of three panels or more, with distinct
    identifiers that the layout has, the three slots are bound to three
    different panels, the three topmost of the slice: RED is not below any
    panel of the slice, YELLOW is not below GREEN, and GREEN is not below any
    panel of the slice that is not bound. *)
Theorem initPlugin_three_topmost (layout : LayoutData) (palette : list RGB_t)
        (slices : list FrameSlice_t) (transTime : option Z) (chosen : FrameSlice_t) :
  at_index slices (middlestFrameSliceIndex slices) = Ok chosen ->
  (3 <= length (panelIds chosen))%nat ->
  NoDup (panelIds chosen) ->
  (forall id, In id (panelIds chosen) -> centroidY layout id <> None) ->
  exists gl red yellow green,
    initPlugin layout palette slices transTime = Ok gl
    /\ colorPanelIds gl = [red; yellow; green]
    /\ NoDup [red; yellow; green]
    /\ incl [red; yellow; green] (panelIds chosen)
    /\ (forall id, In id (panelIds chosen) -> id <> red -> not_below layout red id)
    /\ not_below layout yellow green
    /\ (forall id, In id (panelIds chosen) ->
          ~ In id [red; yellow; green] -> not_below layout green id).
Proof.
  intros Hc Hlen Hnd Hall.
  destruct (initPlugin_result layout palette slices transTime chosen Hc Hnd Hall)
    as (sorted & _ & P & S & ->).
  rewrite bindColorPanelIds_cases.
  rewrite <- (Permutation_length P) in Hlen.
  destruct sorted as [| p0 [| p1 [| p2 rest]]]; cbn [length] in Hlen; try lia.
  cbn [bind]. eexists _, p0, p1, p2. split; [reflexivity |].
  split; [reflexivity |].
  assert (Hnd' : NoDup (p0 :: p1 :: p2 :: rest))
    by (eapply Permutation_NoDup; [symmetry; exact P | exact Hnd]).
  inversion S as [| ? ? S0 F0]; subst.
  inversion S0 as [| ? ? S1 F1]; subst.
  inversion S1 as [| ? ? S2 F2]; subst.
  rewrite Forall_forall in F0, F1, F2.
  split; [| split; [| split; [| split]]].
  - inversion Hnd' as [| ? ? N0 Hnd0]; subst.
    inversion Hnd0 as [| ? ? N1 Hnd1]; subst.
    inversion Hnd1 as [| ? ? N2 _]; subst.
    repeat constructor; cbn in *; intuition.
  - intros id Hid. apply (Permutation_in _ P). cbn in *. intuition.
  - intros id Hid Hne. apply (Permutation_in _ (Permutation_sym P)) in Hid.
    destruct Hid as [E | Hid]; [congruence | apply F0; assumption].
  - apply F1. left. reflexivity.
  - intros id Hid Hno. apply (Permutation_in _ (Permutation_sym P)) in Hid.
    apply F2. cbn in Hid, Hno. intuition.
Qed.

(** X7 on the four panels of the right slice of [four_on_the_right]. *)
Lemma initPlugin_three_topmost_witness :
  exists gl red yellow green,
    initPlugin five_panels [] four_on_the_right None = Ok gl
    /\ colorPanelIds gl = [red; yellow; green]
    /\ NoDup [red; yellow; green]
    /\ incl [red; yellow; green] [3; 2; 5; 4]
    /\ (forall id, In id [3; 2; 5; 4] -> id <> red -> not_below five_panels red id)
    /\ not_below five_panels yellow green
    /\ (forall id, In id [3; 2; 5; 4] ->
          ~ In id [red; yellow; green] -> not_below five_panels green id).
Proof.
  apply (initPlugin_three_topmost five_panels [] four_on_the_right None
                                  (mkSlice [3; 2; 5; 4])).
  - reflexivity.
  - cbn. lia.
  - distinct_panels.
  - known_panels.
Defined.

(** * Further properties of the driver *)

(** ** What a run keeps *)

Lemma initPlugin_shape (layout : LayoutData) (palette : list RGB_t)
      (slices : list FrameSlice_t) (transTime : option Z) (gl : Globals) :
  initPlugin layout palette slices transTime = Ok gl ->
  currentColorIndex gl = RED
  /\ length (colorPanelIds gl) = 3%nat
  /\ length (colors gl) = 3%nat.
Proof.
  unfold initPlugin. rewrite loadUserColors_defaults. cbn [bind]. intros H.
  destruct (middlestPanelIds layout slices) as [sorted | |]; try discriminate.
  cbn [bind] in H. rewrite bindColorPanelIds_cases in H.
  assert (Hcols : length (firstn 3 palette
                          ++ skipn (length (firstn 3 palette)) defaultColors) = 3%nat).
  { destruct palette as [| c0 [| c1 [| c2 rest]]]; reflexivity. }
  destruct sorted as [| p0 [| p1 [| p2 rest]]]; cbn [bind] in H;
    try discriminate; injection H as <-; cbn; auto.
Qed.

Lemma nextColor_range (cids : list Z) (next : Z) :
  forall fuel cur,
    nextColor fuel cids cur = Ok next -> 0 <= next < MAXIMUM_COLORS_COUNT.
Proof.
  change MAXIMUM_COLORS_COUNT with 3.
  induction fuel as [| fuel IH]; intros cur H; [discriminate |].
  rewrite nextColor_step in H.
  destruct (at_index cids (if 3 <=? cur + 1 then 0 else cur + 1)) as [id | |] eqn:E;
    try discriminate.
  cbn [bind] in H.
  destruct (id =? IGNORED_PANEL_ID).
  - eapply IH. eassumption.
  - injection H as <-. apply at_index_bounds in E.
    destruct (Z.leb_spec 3 (cur + 1)); lia.
Qed.

(** X8.  Whatever the layout, every state of a run differs from the state
    that the selector left in the current slot only: the calls of the driver
    change neither the bound panels nor the colours, the slices or the
    transition time.  The current slot is always RED, YELLOW or GREEN, and
    there are always three bound panels and three colours. *)
Theorem reachable_selection_fixed (layout : LayoutData) (palette : list RGB_t)
        (slices : list FrameSlice_t) (transTime : option Z) (gl0 gl : Globals) :
  initPlugin layout palette slices transTime = Ok gl0 ->
  reachable layout palette slices transTime gl ->
  gl = setCurrentColorIndex gl0 (currentColorIndex gl)
  /\ 0 <= currentColorIndex gl < MAXIMUM_COLORS_COUNT
  /\ length (colorPanelIds gl) = 3%nat
  /\ length (colors gl) = 3%nat.
Proof.
  intros Hinit. destruct (initPlugin_shape _ _ _ _ _ Hinit) as (Hcur & Hids & Hcols).
  induction 1 as [gl Hgl | gl fuel frames sleepTime out _ IH Hcall].
  - rewrite Hinit in Hgl. injection Hgl as <-.
    split; [destruct gl0; reflexivity |].
    rewrite Hcur. repeat split; try assumption; discriminate.
  - destruct IH as (E & _ & _ & _).
    destruct (getPluginFrame_Ok _ _ _ _ _ Hcall) as (next & Hn & ->).
    apply nextColor_range in Hn. rewrite E.
    cbn [setCurrentColorIndex currentColorIndex colorPanelIds colors
         layoutData paletteColors frameSlices transitionTime].
    auto.
Qed.

(** X8 on the state with yellow current on [tall_middle]. *)
Lemma reachable_selection_fixed_witness :
  tall_middle_yellow
  = setCurrentColorIndex tall_middle_start (currentColorIndex tall_middle_yellow)
  /\ 0 <= currentColorIndex tall_middle_yellow < MAXIMUM_COLORS_COUNT
  /\ length (colorPanelIds tall_middle_yellow) = 3%nat
  /\ length (colors tall_middle_yellow) = 3%nat.
Proof.
  apply (reachable_selection_fixed five_panels [] tall_middle None).
  - vm_compute. reflexivity.
  - exact tall_middle_yellow_reachable.
Defined.

(** X9.  Whenever the loop that moves to the next colour ends, the slot it
    ends on is RED, YELLOW or GREEN and is bound to an identifier other than
    the ignored sentinel: the driver never makes an ignored slot current,
    whatever the bound panels and the slot it starts from. *)
Theorem nextColor_never_ignored (fuel : nat) (colorPanelIds : list Z)
        (cur next : Z) :
  nextColor fuel colorPanelIds cur = Ok next ->
  0 <= next < MAXIMUM_COLORS_COUNT
  /\ exists id, at_index colorPanelIds next = Ok id /\ id <> IGNORED_PANEL_ID.
Proof.
  intros H. split; [eapply nextColor_range | eapply nextColor_Ok]; eassumption.
Qed.

(** X9 on the slots of a slice of two panels, from RED. *)
Lemma nextColor_never_ignored_witness :
  0 <= GREEN < MAXIMUM_COLORS_COUNT
  /\ exists id, at_index [2; IGNORED_PANEL_ID; 3] GREEN = Ok id
                /\ id <> IGNORED_PANEL_ID.
Proof.
  apply (nextColor_never_ignored 3 [2; IGNORED_PANEL_ID; 3] RED GREEN).
  reflexivity.
Defined.

(** ** A panel with the number of the sentinel *)

(** X10.  When the chosen slice consists of one panel whose identifier is
    the number of the ignored sentinel, the selector binds that identifier to
    all three slots, and the first call of the driver, given a buffer with
    room for all panels, fills the frames and then never leaves the loop that
    looks for a slot that is not ignored: it uses up any amount of fuel. *)
Theorem getPluginFrame_hangs_on_sentinel_panel
        (layout : LayoutData) (palette : list RGB_t) (slices : list FrameSlice_t)
        (transTime : option Z) (chosen : FrameSlice_t) :
  at_index slices (middlestFrameSliceIndex slices) = Ok chosen ->
  panelIds chosen = [IGNORED_PANEL_ID] ->
  exists gl,
    initPlugin layout palette slices transTime = Ok gl
    /\ colorPanelIds gl = [IGNORED_PANEL_ID; IGNORED_PANEL_ID; IGNORED_PANEL_ID]
    /\ forall fuel frames sleepTime,
         (length (allPanelIds slices) <= length frames)%nat ->
         getPluginFrame fuel gl frames sleepTime = OutOfFuel.
Proof.
  intros Hc Hids.
  unfold initPlugin, middlestPanelIds. rewrite loadUserColors_defaults, Hc.
  cbn [bind]. rewrite Hids.
  cbn [bind std_sort insertion_sort linear_insert rev app].
  rewrite bindColorPanelIds_cases. cbn [bind].
  eexists. split; [reflexivity |]. split; [reflexivity |].
  intros fuel frames sleepTime Hfit.
  assert (Hin : In IGNORED_PANEL_ID (allPanelIds slices)).
  { apply (In_allPanelIds slices chosen); [eapply at_index_In; eassumption |].
    rewrite Hids. left. reflexivity. }
  assert (Hcols : exists c0 c1 c2,
             firstn 3 palette ++ skipn (length (firstn 3 palette)) defaultColors
             = [c0; c1; c2]).
  { destruct palette as [| c0 [| c1 [| c2 rest]]]; eexists _, _, _; reflexivity. }
  destruct Hcols as (c0 & c1 & c2 & ->).
  unfold getPluginFrame.
  cbn [colorPanelIds frameSlices currentColorIndex].
  rewrite resetPanels_result by assumption. cbn [bind].
  unfold setCurrentColor.
  cbn [currentColorIndex colors transitionTime scan_frames
       redPanelAbsoluteFrameIndex].
  change (RED =? RED) with true. cbv iota.
  change (at_index [c0; c1; c2] RED) with (Ok c0). cbn [bind].
  rewrite paint_scanned by assumption. cbn [bind].
  rewrite nextColor_all_ignored by (unfold RED, MAXIMUM_COLORS_COUNT, GREEN; lia).
  reflexivity.
Qed.

(** X10 on a layout whose only panel is numbered -1. *)
Lemma getPluginFrame_hangs_on_sentinel_panel_witness :
  exists gl,
    initPlugin lone_sentinel_layout [] lone_sentinel_slices None = Ok gl
    /\ colorPanelIds gl = [IGNORED_PANEL_ID; IGNORED_PANEL_ID; IGNORED_PANEL_ID]
    /\ forall fuel frames sleepTime,
         (length (allPanelIds lone_sentinel_slices) <= length frames)%nat ->
         getPluginFrame fuel gl frames sleepTime = OutOfFuel.
Proof.
  apply (getPluginFrame_hangs_on_sentinel_panel
           lone_sentinel_layout [] lone_sentinel_slices None
           (mkSlice [IGNORED_PANEL_ID])); reflexivity.
Defined.

(** ** The buffer *)

Lemma at_index_fuel {A : Type} (v : list A) (i : Z) : at_index v i <> OutOfFuel.
Proof.
  unfold at_index. destruct (i <? 0); [discriminate |].
  destruct (nth_error v (Z.to_nat i)); discriminate.
Qed.

Lemma resetSlice_short_buffer (cids : list Z) :
  forall ids frames n ri yi gi,
    (n <= length frames < n + length ids)%nat ->
    resetSlice cids ids (mkScan frames (Z.of_nat n) ri yi gi) = Undefined.
Proof.
  induction ids as [| id ids IH]; intros frames n ri yi gi Hlen.
  - cbn [length] in Hlen. lia.
  - cbn [length] in Hlen.
    cbn [resetSlice scan_frames scan_index redPanelAbsoluteFrameIndex
         yellowPanelAbsoluteFrameIndex greenPanelAbsoluteFrameIndex].
    destruct (Nat.eq_dec n (length frames)) as [E | E].
    + unfold store.
      destruct (Z.ltb_spec (Z.of_nat n) (Z.of_nat (length frames))); [lia |].
      rewrite andb_false_r. reflexivity.
    + rewrite store_Ok by lia. cbn [bind].
      destruct (at_index cids RED) eqn:E0;
        [| reflexivity | exfalso; exact (at_index_fuel _ _ E0)]; cbn [bind].
      destruct (at_index cids YELLOW) eqn:E1;
        [| reflexivity | exfalso; exact (at_index_fuel _ _ E1)]; cbn [bind].
      destruct (at_index cids GREEN) eqn:E2;
        [| reflexivity | exfalso; exact (at_index_fuel _ _ E2)]; cbn [bind].
      replace (Z.of_nat n + 1) with (Z.of_nat (S n)) by lia.
      apply IH. rewrite set_nth_length. lia.
Qed.

(** X11.  The driver does not know the length of the buffer: on a buffer
    with fewer entries than the slices have panels it writes behind the end
    of the buffer, and its behaviour is undefined, in every state. *)
Theorem getPluginFrame_short_buffer (fuel : nat) (gl : Globals)
        (frames : list Frame_t) (sleepTime : Z) :
  (length frames < length (allPanelIds (frameSlices gl)))%nat ->
  getPluginFrame fuel gl frames sleepTime = Undefined.
Proof.
  intros H. unfold getPluginFrame. rewrite resetPanels_flat.
  rewrite (resetSlice_short_buffer (colorPanelIds gl) _ frames 0 0 0 0) by lia.
  reflexivity.
Qed.

(** X11 on a buffer of four entries for five panels. *)
Lemma getPluginFrame_short_buffer_witness :
  getPluginFrame 3 tall_middle_start (firstn 4 example_buffer) 0 = Undefined.
Proof.
  apply getPluginFrame_short_buffer. vm_compute. lia.
Defined.

(** ** A panel in two slices *)

Lemma lastIndexOf_last (id : Z) :
  forall ids n found k,
    nth_error ids k = Some id ->
    Z.of_nat (n + k) <= lastIndexOf id ids (Z.of_nat n) found.
Proof.
  induction ids as [| x ids IH]; intros n found k Hk.
  - destruct k; discriminate.
  - cbn [lastIndexOf]. replace (Z.of_nat n + 1) with (Z.of_nat (S n)) by lia.
    destruct k as [| k].
    + injection Hk as ->. rewrite Z.eqb_refl, Nat.add_0_r.
      destruct (lastIndexOf_cases id ids (S n) (Z.of_nat n))
        as [[_ ->] | (_ & Hr & _)]; lia.
    + cbn [nth_error] in Hk. specialize (IH (S n) (if x =? id then Z.of_nat n else found) k Hk).
      lia.
Qed.

(** X12.  Of a panel that the slices hold more than once, the driver lights
    the last entry only: in every state of a run the coloured entry is at a
    position of the panel of the current slot, and no later position holds
    that panel; when no panel occurs twice, no other position holds it. *)
Theorem getPluginFrame_lights_last_entry
        (layout : LayoutData) (palette : list RGB_t) (slices : list FrameSlice_t)
        (transTime : option Z) (gl : Globals) (frames : list Frame_t)
        (sleepTime : Z) (fuel : nat) :
  selectable layout slices transTime ->
  reachable layout palette slices transTime gl ->
  (length (allPanelIds slices) <= length frames)%nat ->
  (3 <= fuel)%nat ->
  exists out id color p,
    getPluginFrame fuel gl frames sleepTime = Ok out
    /\ at_index (colorPanelIds gl) (currentColorIndex gl) = Ok id
    /\ at_index (colors gl) (currentColorIndex gl) = Ok color
    /\ nth_error (allPanelIds slices) p = Some id
    /\ nth_error (out_frames out) p
       = Some (mkFrame id (R color) (G color) (B color) 1)
    /\ (forall k, nth_error (allPanelIds slices) k = Some id -> (k <= p)%nat)
    /\ (forall k, (k < p)%nat -> nth_error (allPanelIds slices) k = Some id ->
                  nth_error (out_frames out) k = Some (mkFrame id 0 0 0 1))
    /\ (NoDup (allPanelIds slices) ->
        forall k, nth_error (allPanelIds slices) k = Some id -> k = p).
Proof.
  intros Hsel Hreach Hfit Hfuel.
  destruct (reachable_ready _ _ _ _ _ Hsel Hreach) as [Hready Hs].
  rewrite <- Hs in *.
  destruct (getPluginFrame_ready gl frames sleepTime fuel Hready Hfit Hfuel)
    as (id & color & next & Hid & Hcolor & Hin & _ & _ & -> & _).
  destruct (lastIndexOf_found id _ Hin) as [Hr Hp].
  set (ids := allPanelIds (frameSlices gl)) in *.
  assert (Hlast : forall k, nth_error ids k = Some id ->
                            (k <= Z.to_nat (lastIndexOf id ids 0 0))%nat).
  { intros k Hk. pose proof (lastIndexOf_last id ids 0 0 k Hk) as L.
    cbn [Nat.add Z.of_nat] in L. lia. }
  set (p := Z.to_nat (lastIndexOf id ids 0 0)) in *.
  assert (Hplt : (p < length ids)%nat) by (subst p; lia).
  assert (Hentry : forall k idk,
             nth_error ids k = Some idk ->
             nth_error (set_nth (map blackFrame ids) p (colorFrame id color)
                          ++ skipn (length ids) frames) k
             = Some (if Nat.eqb k p then colorFrame id color else blackFrame idk)).
  { intros k idk Hk.
    assert (Hklt : (k < length ids)%nat) by (apply nth_error_Some; congruence).
    rewrite nth_error_app1 by (rewrite set_nth_length, length_map; assumption).
    rewrite nth_error_set_nth by (rewrite length_map; assumption).
    destruct (Nat.eqb k p); [reflexivity |].
    rewrite nth_error_map, Hk. reflexivity. }
  eexists _, id, color, p. split; [reflexivity |]. cbn [out_frames].
  split; [assumption |]. split; [assumption |]. split; [assumption |].
  split; [| split; [assumption | split]].
  - rewrite (Hentry p id Hp), Nat.eqb_refl. reflexivity.
  - intros k Hk Hkid. rewrite (Hentry k id Hkid).
    destruct (Nat.eqb_spec k p); [lia | reflexivity].
  - intros Hnd k Hk.
    apply (proj1 (NoDup_nth_error ids) Hnd k p);
      [apply nth_error_Some; congruence | congruence].
Qed.

(** X12 on slices that hold panel 2 twice, in the initial state, in which
    RED is bound to panel 2. *)
Lemma getPluginFrame_lights_last_entry_witness :
  exists out id color p,
    getPluginFrame 3 (mkGlobals five_panels [] panel_twice 50 defaultColors
                                [2; 3; 5] RED) example_buffer 0 = Ok out
    /\ at_index [2; 3; 5] RED = Ok id
    /\ at_index defaultColors RED = Ok color
    /\ nth_error (allPanelIds panel_twice) p = Some id
    /\ nth_error (out_frames out) p
       = Some (mkFrame id (R color) (G color) (B color) 1)
    /\ (forall k, nth_error (allPanelIds panel_twice) k = Some id -> (k <= p)%nat)
    /\ (forall k, (k < p)%nat -> nth_error (allPanelIds panel_twice) k = Some id ->
                  nth_error (out_frames out) k = Some (mkFrame id 0 0 0 1))
    /\ (NoDup (allPanelIds panel_twice) ->
        forall k, nth_error (allPanelIds panel_twice) k = Some id -> k = p).
Proof.
  apply (getPluginFrame_lights_last_entry five_panels [] panel_twice None).
  - split; [| discriminate].
    exists (mkSlice [3; 2; 5]). split; [reflexivity |].
    split; [discriminate |]. split; [distinct_panels |]. split; [known_panels |].
    cbn. intros [H | [H | [H | []]]]; discriminate H.
  - apply reach_init. vm_compute. reflexivity.
  - vm_compute. lia.
  - lia.
Defined.

(** ** The delay of the yellow light *)

(** X13.  For every transition time that is an [int], negative ones and the
    two ends of the range too, the product with 0.4 converts back to an
    [int]: the delay of the yellow light is defined, it is two fifths of the
    transition time rounded toward zero, its magnitude does not exceed that
    of the transition time, and the opposite transition time gives the
    opposite delay. *)
Theorem yellowSleepTime_rounds_toward_zero (t : Z) :
  INT_MIN <= t <= INT_MAX ->
  yellowSleepTime t = Ok (Z.quot (2 * t) 5)
  /\ Z.abs (5 * Z.quot (2 * t) 5) <= Z.abs (2 * t) < Z.abs (5 * Z.quot (2 * t) 5) + 5
  /\ Z.abs (Z.quot (2 * t) 5) <= Z.abs t
  /\ (t <> INT_MIN -> yellowSleepTime (- t) = Ok (- Z.quot (2 * t) 5)).
Proof.
  intros Ht. split; [apply yellowSleepTime_int; assumption |].
  assert (Q : Z.quot (2 * t) 5 = Z.sgn t * (2 * Z.abs t / 5)).
  { destruct (Z.leb_spec 0 t).
    - rewrite Z.quot_div_nonneg by lia.
      rewrite Z.abs_eq by assumption.
      destruct (Z.eq_dec t 0) as [-> | ?]; [reflexivity |].
      rewrite Z.sgn_pos by lia. lia.
    - replace (2 * t) with (- (2 * - t)) by ring.
      rewrite Z.quot_opp_l, Z.quot_div_nonneg by lia.
      rewrite Z.abs_neq, Z.sgn_neg by lia. lia. }
  assert (E : 2 * Z.abs t = 5 * (2 * Z.abs t / 5) + (2 * Z.abs t) mod 5)
    by (apply Z.div_mod; lia).
  assert (M : 0 <= (2 * Z.abs t) mod 5 < 5) by (apply Z.mod_pos_bound; lia).
  assert (P : 0 <= 2 * Z.abs t / 5) by (apply Z.div_pos; lia).
  split; [| split].
  - rewrite Q. destruct (Z.sgn_spec t) as [[? ->] | [[? ->] | [? ->]]]; lia.
  - rewrite Q. destruct (Z.sgn_spec t) as [[? ->] | [[? ->] | [? ->]]]; lia.
  - intros Hmin. rewrite yellowSleepTime_int by (unfold INT_MIN, INT_MAX in *; lia).
    f_equal. replace (2 * - t) with (- (2 * t)) by ring. apply Z.quot_opp_l. lia.
Qed.

(** X13 on the smallest [int]. *)
Lemma yellowSleepTime_rounds_toward_zero_witness :
  yellowSleepTime INT_MIN = Ok (Z.quot (2 * INT_MIN) 5)
  /\ Z.abs (5 * Z.quot (2 * INT_MIN) 5) <= Z.abs (2 * INT_MIN)
     < Z.abs (5 * Z.quot (2 * INT_MIN) 5) + 5
  /\ Z.abs (Z.quot (2 * INT_MIN) 5) <= Z.abs INT_MIN
  /\ (INT_MIN <> INT_MIN -> yellowSleepTime (- INT_MIN) = Ok (- Z.quot (2 * INT_MIN) 5)).
Proof.
  apply (yellowSleepTime_rounds_toward_zero INT_MIN).
  unfold INT_MIN, INT_MAX. lia.
Defined.
